(** * Perses panel actions: query-result classification and CSV export

    A shallow embedding of the TypeScript panel-action code of the Perses
    dashboards UI (PanelActions.tsx and PanelHeader.tsx, in their several
    variants) together with the properties of the classifier, the CSV
    serializers, the export handler and the query state indicator.

    Payloads are untyped JavaScript data, so the embedding starts with a
    small model of JavaScript values and of the built-in operations the code
    relies on (truthiness, property reads, String conversion, Array join,
    Date to ISO-8601). *)

From Stdlib Require Import ZArith List String Ascii Bool Lia.
From Stdlib Require Import DecimalString DecimalZ OrderedTypeEx Sorted.
Import ListNotations.

Open Scope string_scope.
Open Scope Z_scope.

(** ** JavaScript values and built-ins *)

Module JS.

(** JSON-like data.  Numbers are the integer-valued ones (exactly
    representable in a double as long as they stay in the safe range);
    objects keep their properties in insertion order, as [Object.keys]
    reports them. *)
#[warnings="-register-all"]
Inductive value : Type :=
| VUndefined
| VNull
| VBool (b : bool)
| VNum (n : Z)
| VStr (s : string)
| VArr (elems : list value)
| VObj (props : list (string * value)).

Inductive exn : Type :=
| TypeError
| RangeError.

(** The outcome of evaluating an expression or a function body: a value, or
    an exception that propagates to the caller. *)
Inductive completion (A : Type) : Type :=
| Normal (a : A)
| Throw (e : exn).

Arguments Normal {A} a.
Arguments Throw {A} e.

Definition bind {A B : Type} (c : completion A) (k : A -> completion B)
  : completion B :=
  match c with
  | Normal a => k a
  | Throw e => Throw e
  end.

Notation "x <- c ;; k" := (bind c (fun x => k))
  (at level 61, c at next level, right associativity).

(** ToBoolean *)
Definition truthy (v : value) : bool :=
  match v with
  | VUndefined | VNull => false
  | VBool b => b
  | VNum n => negb (n =? 0)
  | VStr s => negb (String.eqb s "")
  | VArr _ | VObj _ => true
  end.

Definition isArray (v : value) : bool :=
  match v with VArr _ => true | _ => false end.

Definition nullish (v : value) : bool :=
  match v with VUndefined | VNull => true | _ => false end.

Inductive jstype : Type :=
| TUndefined | TObject | TBoolean | TNumber | TString.

(** The [typeof] operator ([typeof null] is "object"). *)
Definition typeof (v : value) : jstype :=
  match v with
  | VUndefined => TUndefined
  | VNull | VArr _ | VObj _ => TObject
  | VBool _ => TBoolean
  | VNum _ => TNumber
  | VStr _ => TString
  end.

(** Own string-keyed properties of an object literal, in insertion order. *)
Fixpoint lookup {A : Type} (props : list (string * A)) (k : string)
  : option A :=
  match props with
  | [] => None
  | (k', v) :: rest => if String.eqb k' k then Some v else lookup rest k
  end.

(** [obj[k] = v]: overwrite in place, or append a new property. *)
Fixpoint objSet {A : Type} (props : list (string * A)) (k : string) (v : A)
  : list (string * A) :=
  match props with
  | [] => [(k, v)]
  | (k', v') :: rest =>
      if String.eqb k' k then (k', v) :: rest
      else (k', v') :: objSet rest k v
  end.

Definition keys {A : Type} (props : list (string * A)) : list string :=
  map fst props.

(** Number to decimal string (the notation of every integer below 1e21). *)
Definition Z_to_string (n : Z) : string :=
  NilEmpty.string_of_int (Z.to_int n).

(** The element of an array-like at the index spelled by the key [k]. *)
Fixpoint indexed (l : list value) (i : Z) (k : string) : option value :=
  match l with
  | [] => None
  | x :: rest =>
      if String.eqb (Z_to_string i) k then Some x else indexed rest (i + 1) k
  end.

Fixpoint chars (s : string) : list value :=
  match s with
  | EmptyString => []
  | String c rest => VStr (String c EmptyString) :: chars rest
  end.

(** The elements of an array or the characters of a string: what [for-of]
    and an index loop up to [.length] visit. *)
Definition arrayLike (v : value) : option (list value) :=
  match v with
  | VArr l => Some l
  | VStr s => Some (chars s)
  | _ => None
  end.

(** Own data properties of a non-null value: the properties of an object,
    the indices and [length] of an array or a string.  Prototype methods
    are not data and are outside the model. *)
Definition ownProp (v : value) (k : string) : option value :=
  match v with
  | VObj props => lookup props k
  | VArr _ | VStr _ =>
      match arrayLike v with
      | Some l =>
          if String.eqb k "length" then Some (VNum (Z.of_nat (List.length l)))
          else indexed l 0 k
      | None => None
      end
  | _ => None
  end.

(** Property read [v.k] or [v[k]]: [undefined] when the property is absent,
    a TypeError on [null] and [undefined]. *)
Definition get (v : value) (k : string) : completion value :=
  match v with
  | VUndefined | VNull => Throw TypeError
  | _ => Normal (match ownProp v k with Some x => x | None => VUndefined end)
  end.

(** Optional chaining [v?.k]. *)
Definition getOpt (v : value) (k : string) : value :=
  match ownProp v k with Some x => x | None => VUndefined end.

(** The [k in v] operator: a TypeError unless [v] is an object. *)
Definition has (k : string) (v : value) : completion bool :=
  match v with
  | VObj _ | VArr _ =>
      Normal (match ownProp v k with Some _ => true | None => false end)
  | _ => Throw TypeError
  end.

(** [for (const x of v)]: arrays and strings are iterable, other values
    raise a TypeError. *)
Definition iterate (v : value) : completion (list value) :=
  match arrayLike v with
  | Some l => Normal l
  | None => Throw TypeError
  end.

(** The elements reached by [for (i = 0; i < v.length; i++) v[i]]: none when
    [v] has no [length]; a TypeError on [null] and [undefined]. *)
Definition indexLoop (v : value) : completion (list value) :=
  match v with
  | VUndefined | VNull => Throw TypeError
  | _ => Normal (match arrayLike v with Some l => l | None => [] end)
  end.

(** A method call [v.map(f)], [v.some(f)], ... that only arrays provide. *)
Definition arrayMethod (v : value) : completion (list value) :=
  match v with
  | VArr l => Normal l
  | _ => Throw TypeError
  end.

(** [a || b] and [a ?? b] *)
Definition or_else (a b : value) : value := if truthy a then a else b.
Definition nullish_else (a b : value) : value := if nullish a then b else a.

(** ToString, as applied by [String(v)], template literals and
    [Array.prototype.join]; inside an array [null] and [undefined] elements
    print as the empty string. *)
Fixpoint toStr (v : value) : string :=
  match v with
  | VUndefined => "undefined"
  | VNull => "null"
  | VBool true => "true"
  | VBool false => "false"
  | VNum n => Z_to_string n
  | VStr s => s
  | VArr elems =>
      (fix joinElems (l : list value) : string :=
         match l with
         | [] => ""
         | x :: rest =>
             let sx := match x with
                       | VUndefined | VNull => ""
                       | _ => toStr x
                       end in
             match rest with
             | [] => sx
             | _ :: _ => sx ++ "," ++ joinElems rest
             end
         end) elems
  | VObj _ => "[object Object]"
  end.

Definition elemStr (v : value) : string :=
  if nullish v then "" else toStr v.

(** [Array.prototype.join] on an array of strings, and on arbitrary values. *)
Definition joinStr (sep : string) (l : list string) : string :=
  String.concat sep l.

(** The text accumulated by [csvString += line] over a loop. *)
Definition lines (l : list string) : string :=
  fold_right String.append "" l.

Definition join (sep : string) (l : list value) : string :=
  joinStr sep (map elemStr l).

(** [s.includes(c)] for a one-character needle, and the global replacement
    of every double quote by two double quotes. *)
Fixpoint includes (s : string) (c : ascii) : bool :=
  match s with
  | EmptyString => false
  | String a rest => Ascii.eqb a c || includes rest c
  end.

Definition dquote : ascii := "034"%char.
Definition comma : ascii := ","%char.
Definition newline : ascii := "010"%char.
Definition nl : string := String newline "".

Fixpoint doubleQuotes (s : string) : string :=
  match s with
  | EmptyString => EmptyString
  | String a rest =>
      if Ascii.eqb a dquote
      then String dquote (String dquote (doubleQuotes rest))
      else String a (doubleQuotes rest)
  end.

(** *** Date: time value to ISO-8601 (ECMA-262, Date objects) *)

Definition msPerDay : Z := 86400000.
Definition maxTime : Z := 8640000000000000.

Definition DayFromYear (y : Z) : Z :=
  365 * (y - 1970) + (y - 1969) / 4 - (y - 1901) / 100 + (y - 1601) / 400.

(** The largest year [y] with [DayFromYear y <= day]: the estimate is off by
    at most one. *)
Definition YearFromDay (day : Z) : Z :=
  let y0 := 1970 + (400 * day) / 146097 in
  if DayFromYear (y0 + 1) <=? day then y0 + 1
  else if DayFromYear y0 <=? day then y0
  else y0 - 1.

Definition InLeapYear (y : Z) : Z :=
  if DayFromYear (y + 1) - DayFromYear y =? 366 then 1 else 0.

(** Month (0-based) and day of the month from the day within the year. *)
Definition MonthDate (d leap : Z) : Z * Z :=
  if d <? 31 then (0, d + 1)
  else if d <? 59 + leap then (1, d - 30)
  else if d <? 90 + leap then (2, d - 58 - leap)
  else if d <? 120 + leap then (3, d - 89 - leap)
  else if d <? 151 + leap then (4, d - 119 - leap)
  else if d <? 181 + leap then (5, d - 150 - leap)
  else if d <? 212 + leap then (6, d - 180 - leap)
  else if d <? 243 + leap then (7, d - 211 - leap)
  else if d <? 273 + leap then (8, d - 242 - leap)
  else if d <? 304 + leap then (9, d - 272 - leap)
  else if d <? 334 + leap then (10, d - 303 - leap)
  else (11, d - 333 - leap).

Definition digit (d : Z) : ascii := ascii_of_nat (48 + Z.to_nat d).

(** [n] in decimal, on exactly [w] digits. *)
Fixpoint padDigits (w : nat) (n : Z) : string :=
  match w with
  | O => EmptyString
  | S w' => padDigits w' (n / 10) ++ String (digit (n mod 10)) EmptyString
  end.

Definition yearString (y : Z) : string :=
  if (0 <=? y) && (y <=? 9999) then padDigits 4 y
  else (if y <? 0 then "-" else "+") ++ padDigits 6 (Z.abs y).

(** The calendar fields of a time value. *)
Record fields : Type := mkFields {
  f_year : Z; f_month : Z; f_date : Z;
  f_hour : Z; f_min : Z; f_sec : Z; f_ms : Z
}.

Definition fieldsOf (t : Z) : fields :=
  let day := t / msPerDay in
  let tod := t mod msPerDay in
  let y := YearFromDay day in
  let md := MonthDate (day - DayFromYear y) (InLeapYear y) in
  mkFields y (fst md + 1) (snd md)
           (tod / 3600000) ((tod / 60000) mod 60) ((tod / 1000) mod 60)
           (tod mod 1000).

Definition isoOfFields (f : fields) : string :=
  yearString (f_year f) ++ "-" ++ padDigits 2 (f_month f) ++ "-" ++
  padDigits 2 (f_date f) ++ "T" ++ padDigits 2 (f_hour f) ++ ":" ++
  padDigits 2 (f_min f) ++ ":" ++ padDigits 2 (f_sec f) ++ "." ++
  padDigits 3 (f_ms f) ++ "Z".

(** TimeClip: a time value outside +-8.64e15 ms is an invalid date. *)
Definition validTime (t : Z) : bool := Z.abs t <=? maxTime.

(** [new Date(t).toISOString()]: a RangeError on an invalid date. *)
Definition toISOString (t : Z) : completion string :=
  if validTime t then Normal (isoOfFields (fieldsOf t)) else Throw RangeError.

(** [Array.prototype.sort()] with the default comparator orders strings by
    their code units.  The order is total, so every sorting algorithm yields
    the same array; insertion sort stands for the engine's. *)
Fixpoint insertSorted (s : string) (l : list string) : list string :=
  match l with
  | [] => [s]
  | x :: rest =>
      if String.leb s x then s :: x :: rest else x :: insertSorted s rest
  end.

Definition sort (l : list string) : list string :=
  fold_right insertSorted [] l.

Definition arrayLength (v : value) : Z :=
  match v with
  | VArr l => Z.of_nat (List.length l)
  | _ => 0
  end.

(** [v[i]] for a numeric index. *)
Definition elemAt (v : value) (i : nat) : completion value :=
  get v (Z_to_string (Z.of_nat i)).

Definition enumerate {A : Type} (l : list A) : list (nat * A) :=
  combine (seq 0 (List.length l)) l.

(** Monadic iteration, for loops whose body may throw. *)
Fixpoint foldM {A B : Type} (f : A -> B -> completion A) (l : list B) (a : A)
  : completion A :=
  match l with
  | [] => Normal a
  | x :: rest => a' <- f a x ;; foldM f rest a'
  end.

Fixpoint mapM {A B : Type} (f : A -> completion B) (l : list A)
  : completion (list B) :=
  match l with
  | [] => Normal []
  | x :: rest => y <- f x ;; ys <- mapM f rest ;; Normal (y :: ys)
  end.

(** [Array.prototype.some] and [every] with a callback that may throw. *)
Fixpoint someM {A : Type} (f : A -> completion bool) (l : list A)
  : completion bool :=
  match l with
  | [] => Normal false
  | x :: rest => b <- f x ;; if b then Normal true else someM f rest
  end.

Fixpoint everyM {A : Type} (f : A -> completion bool) (l : list A)
  : completion bool :=
  match l with
  | [] => Normal true
  | x :: rest => b <- f x ;; if b then everyM f rest else Normal false
  end.

(** [Object.keys] of an object or an array. *)
Definition objectKeys (v : value) : list string :=
  match v with
  | VObj props => keys props
  | VArr l => map (fun i => Z_to_string (Z.of_nat i)) (seq 0 (List.length l))
  | _ => []
  end.

End JS.

Import JS.

(** ** Query results, as the plugin system hands them to a panel *)

Module PluginSystem.

(** What the state indicator observes of an error: its [message] and what
    its [toString()] returns, [None] standing for [null] or [undefined]. *)
Record ErrorObject : Type := mkError {
  message : option string;
  toString : option string
}.

(** One query's outcome; a falsy [error] is [None]. *)
Record QueryData : Type := mkQueryData {
  data : value;
  isFetching : bool;
  error : option ErrorObject
}.

End PluginSystem.

Import PluginSystem.

(** ** PanelActions.tsx, the variant with data-type detection *)

Module PanelActions.

Inductive DataType : Type :=
| timeseries
| table
| barchart
| unknown.

Definition DataType_str (t : DataType) : string :=
  match t with
  | timeseries => "timeseries"
  | table => "table"
  | barchart => "barchart"
  | unknown => "unknown"
  end.

Definition isUnknown (t : DataType) : bool :=
  match t with unknown => true | _ => false end.

Definition detectDataType (data : value) : completion DataType :=
  if negb (truthy data) then Normal unknown else
  series <- get data "series" ;;
  isTimeSeries <-
    (if truthy series && isArray series && (0 <? arrayLength series) then
       firstSeries <- elemAt series 0 ;;
       values <- get firstSeries "values" ;;
       Normal (truthy values && isArray values)
     else Normal false) ;;
  if isTimeSeries then Normal timeseries else
  columns <- get data "columns" ;;
  rows <- get data "rows" ;;
  if truthy columns && isArray columns && truthy rows && isArray rows
  then Normal table else
  categories <- get data "categories" ;;
  isBarChart <-
    (if truthy categories && isArray categories &&
        truthy series && isArray series then
       firstSeries <- elemAt series 0 ;;
       if truthy firstSeries then
         d <- get firstSeries "data" ;;
         Normal (truthy d && isArray d)
       else Normal false
     else Normal false) ;;
  if isBarChart then Normal barchart else Normal unknown.

Definition hasExportableData (data : value) : completion bool :=
  dataType <- detectDataType data ;;
  Normal (negb (isUnknown dataType)).

Record SeriesMetadata : Type := mkSeriesMetadata {
  legendName : value;
  columnName : string
}.

Definition getSeriesLegendName (series : value) (seriesIndex : nat)
  : completion SeriesMetadata :=
  formattedName <- get series "formattedName" ;;
  legendName' <- get series "legendName" ;;
  displayName <- get series "displayName" ;;
  legend <- get series "legend" ;;
  name <- get series "name" ;;
  let number := Z_to_string (Z.of_nat seriesIndex + 1) in
  Normal (mkSeriesMetadata
    (or_else (or_else (or_else (or_else (or_else
       formattedName legendName') displayName) legend) name)
       (VStr ("Series " ++ number)))
    ("Series_" ++ number)).

(** The object [result]: ISO timestamp to (column name to value). *)
Definition ResultMap : Type := list (string * list (string * value)).

Definition setCell (result : ResultMap) (dateTime column : string) (v : value)
  : ResultMap :=
  let row := match lookup result dateTime with
             | Some r => r
             | None => []
             end in
  objSet result dateTime (objSet row column v).

Section Serializers.

(** [Date.parse] is implementation-defined outside the ISO format: it is a
    parameter, [None] standing for NaN.  [Date_now] is the time value of
    [new Date()]. *)
Variable Date_parse : string -> option Z.
Variable Date_now : Z.

Definition threshold : Z := 10000000000.

(** The timestamp of one entry as a row key: [None] when the entry is
    skipped. *)
Definition entryDateTime (timestamp : value) : completion (option string) :=
  match typeof timestamp with
  | TNumber =>
      match timestamp with
      | VNum t =>
          let timestampMs := if t >? threshold then t else t * 1000 in
          dateTime <- toISOString timestampMs ;;
          Normal (Some dateTime)
      | _ => Normal None
      end
  | TString =>
      match timestamp with
      | VStr s =>
          match Date_parse s with
          | Some t => dateTime <- toISOString t ;; Normal (Some dateTime)
          | None => Throw RangeError
          end
      | _ => Normal None
      end
  | _ => Normal None
  end.

(** Body of the loop over [series.values]. *)
Definition processEntry (column : string) (result : ResultMap) (entry : value)
  : completion ResultMap :=
  if negb (isArray entry) || (arrayLength entry <? 2) then Normal result else
  timestamp <- elemAt entry 0 ;;
  v <- elemAt entry 1 ;;
  key <- entryDateTime timestamp ;;
  match key with
  | Some dateTime => Normal (setCell result dateTime column v)
  | None => Normal result
  end.

(** The loop over [data.series], from index [i] on. *)
Fixpoint processSeries (i : nat) (series : list value)
    (acc : list SeriesMetadata * ResultMap)
  : completion (list SeriesMetadata * ResultMap) :=
  match series with
  | [] => Normal acc
  | s :: rest =>
      if negb (truthy s) then processSeries (S i) rest acc else
      values <- get s "values" ;;
      match values with
      | VArr entries =>
          seriesMetadata <- getSeriesLegendName s i ;;
          result <- foldM (processEntry (columnName seriesMetadata))
                          entries (snd acc) ;;
          processSeries (S i) rest ((fst acc ++ [seriesMetadata])%list, result)
      | _ => processSeries (S i) rest acc
      end
  end.

Definition legendLine (info : SeriesMetadata) : string :=
  "# " ++ columnName info ++ ": " ++ toStr (legendName info) ++ nl.

Definition rowCell (rowData : value) (column : string) : value :=
  nullish_else (getOpt rowData column) (VStr "").

Definition rowLine (result : ResultMap) (columnNames : list string)
    (dateTime : string) : string :=
  let rowData := match lookup result dateTime with
                 | Some r => VObj r
                 | None => VUndefined
                 end in
  dateTime ++ "," ++ join "," (map (rowCell rowData) columnNames) ++ nl.

Definition exportTimeSeriesData (data : value) (title : string)
  : completion string :=
  series <- get data "series" ;;
  if negb (truthy series) || negb (isArray series) ||
     (arrayLength series =? 0) then Normal "" else
  elems <- indexLoop series ;;
  acc <- processSeries 0 elems ([], []) ;;
  let seriesInfo := fst acc in
  let result := snd acc in
  let columnNames := map columnName seriesInfo in
  let sortedDateTimes := sort (keys result) in
  Normal ("# Legend Information:" ++ nl ++
          lines (map legendLine seriesInfo) ++
          "#" ++ nl ++
          "DateTime," ++ joinStr "," columnNames ++ nl ++
          lines (map (rowLine result columnNames) sortedDateTimes)).

(** One [# name: displayName (type)] comment line of the table export. *)
Definition columnInfoLine (column : value) : completion string :=
  displayName' <- get column "displayName" ;;
  name <- get column "name" ;;
  type' <- get column "type" ;;
  let displayName := or_else displayName' name in
  let type := if truthy type' then " (" ++ toStr type' ++ ")" else "" in
  Normal ("# " ++ toStr name ++ ": " ++ toStr displayName ++ type ++ nl).

Definition columnHeader (col : value) : completion value :=
  displayName <- get col "displayName" ;;
  name <- get col "name" ;;
  Normal (or_else displayName name).

(** The cell of [row] under column [col], as the callback of
    [data.columns.map] computes it. *)
Definition tableCell (row col : value) : completion string :=
  name <- get col "name" ;;
  v <- get row (toStr name) ;;
  if nullish v then Normal "" else
  match v with
  | VStr s =>
      if includes s comma
      then Normal (String dquote (doubleQuotes s) ++ String dquote "")
      else Normal (toStr v)
  | _ => Normal (toStr v)
  end.

Definition tableRowLine (columns : value) (row : value) : completion string :=
  cols <- arrayMethod columns ;;
  values <- mapM (tableCell row) cols ;;
  Normal (joinStr "," values ++ nl).

Definition exportTableData (data : value) (title : string)
  : completion string :=
  columns <- get data "columns" ;;
  rows <- get data "rows" ;;
  if negb (truthy columns) || negb (truthy rows) then Normal "" else
  columnList <- iterate columns ;;
  info <- mapM columnInfoLine columnList ;;
  cols <- arrayMethod columns ;;
  headers <- mapM columnHeader cols ;;
  rowList <- iterate rows ;;
  rowLines <- mapM (tableRowLine columns) rowList ;;
  Normal ("# Column Information:" ++ nl ++
          lines info ++
          "#" ++ nl ++
          join "," headers ++ nl ++
          lines rowLines).

Definition seriesNumber (i : nat) : string :=
  "Series_" ++ Z_to_string (Z.of_nat i + 1).

Definition barSeriesInfoLine (p : nat * value) : completion string :=
  let (i, series) := p in
  if negb (truthy series) then Normal "" else
  displayName' <- get series "displayName" ;;
  name <- get series "name" ;;
  Normal ("# " ++ seriesNumber i ++ ": " ++
          toStr (or_else displayName' name) ++ nl).

Definition barCell (i : nat) (series : value) : completion string :=
  d <- get series "data" ;;
  v <- elemAt d i ;;
  match v with
  | VUndefined => Normal ""
  | _ => Normal (toStr v)
  end.

Definition barRowLine (seriesElems : list value) (p : nat * value)
  : completion string :=
  let (i, category) := p in
  values <- mapM (barCell i) seriesElems ;;
  Normal (toStr category ++ "," ++ joinStr "," values ++ nl).

Definition axisLine (label : string) (axis : value) : string :=
  let t := getOpt axis "title" in
  if truthy t then "# " ++ label ++ ": " ++ toStr t ++ nl else "".

Definition exportBarChartData (data : value) (title : string)
  : completion string :=
  categories <- get data "categories" ;;
  series <- get data "series" ;;
  if negb (truthy categories) || negb (truthy series) then Normal "" else
  xAxis <- get data "xAxis" ;;
  yAxis <- get data "yAxis" ;;
  looped <- indexLoop series ;;
  info <- mapM barSeriesInfoLine (enumerate looped) ;;
  seriesElems <- arrayMethod series ;;
  let seriesHeaders := map seriesNumber (seq 0 (List.length seriesElems)) in
  cats <- indexLoop categories ;;
  rowLines <- mapM (barRowLine seriesElems) (enumerate cats) ;;
  Normal ("# Axis Information:" ++ nl ++
          axisLine "X-Axis" xAxis ++
          axisLine "Y-Axis" yAxis ++
          "# Series Information:" ++ nl ++
          lines info ++
          "#" ++ nl ++
          "Category," ++ joinStr "," seriesHeaders ++ nl ++
          lines rowLines).

(** What a click on the export button does: nothing, or the download of a
    file ([console.warn] output is not modelled). *)
Inductive Effect : Type :=
| NoOp
| Download (filename content : string).

Definition createCsvExportHandler (title : string) (queryResults : value)
    (dataType : option DataType) : completion Effect :=
  if negb (truthy queryResults) then Normal NoOp else
  detectedType <- match dataType with
                  | Some t => Normal t
                  | None => detectDataType queryResults
                  end ;;
  exported <- toISOString Date_now ;;
  let header := "# Chart: " ++ title ++ nl ++
                "# Data Type: " ++ DataType_str detectedType ++ nl ++
                "# Exported: " ++ exported ++ nl in
  body <- match detectedType with
          | timeseries =>
              csv <- exportTimeSeriesData queryResults title ;;
              Normal (Some csv)
          | table =>
              csv <- exportTableData queryResults title ;;
              Normal (Some csv)
          | barchart =>
              csv <- exportBarChartData queryResults title ;;
              Normal (Some csv)
          | unknown => Normal None
          end ;;
  match body with
  | Some csv =>
      Normal (Download (title ++ "_" ++ DataType_str detectedType ++
                        "_data.csv")
                       (header ++ csv))
  | None => Normal NoOp
  end.

(** The serializer the handler dispatches to for a shape. *)
Definition toCsv (data : value) (shape : DataType) (title : string)
  : completion string :=
  match shape with
  | timeseries => exportTimeSeriesData data title
  | table => exportTableData data title
  | barchart => exportBarChartData data title
  | unknown => Normal ""
  end.

End Serializers.

(** The export button: [None] when the component renders [null], otherwise
    the tooltip text of the rendered button. *)
Definition csvExportButton (queryResults : value) (dataType : option DataType)
  : completion (option string) :=
  hasExportableDataCheck <- hasExportableData queryResults ;;
  if negb hasExportableDataCheck then Normal None else
  detectedType <- match dataType with
                  | Some t => Normal t
                  | None => detectDataType queryResults
                  end ;;
  Normal (Some ("Export " ++ DataType_str detectedType ++ " data as CSV")).

End PanelActions.

(** ** PanelHeader.tsx: extraction of the exportable data *)

Module PanelHeader.

Import PanelActions.

Definition isBarSeries (s : value) : completion bool :=
  name <- get s "name" ;;
  match typeof name with
  | TString => d <- get s "data" ;; Normal (isArray d)
  | _ => Normal false
  end.

(** The alternative bar-chart convention, [labels] and [datasets]. *)
Definition datasetToBarSeries (p : nat * value) : completion value :=
  let (index, dataset) := p in
  label <- get dataset "label" ;;
  d <- get dataset "data" ;;
  backgroundColor <- get dataset "backgroundColor" ;;
  borderColor <- get dataset "borderColor" ;;
  let fallback := VStr ("Dataset " ++ Z_to_string (Z.of_nat index + 1)) in
  Normal (VObj [("name", or_else label fallback);
                ("displayName", or_else label fallback);
                ("data", or_else d (VArr []));
                ("color", or_else backgroundColor borderColor)]).

Definition isTimePoint (point : value) : completion bool :=
  if isArray point && (2 <=? arrayLength point) then Normal true else
  match typeof point with
  | TObject =>
      x <- get point "x" ;;
      t <- get point "t" ;;
      Normal (match x, t with
              | VUndefined, VUndefined => false
              | _, _ => true
              end)
  | _ => Normal false
  end.

Definition hasTimePoints (dataset : value) : completion bool :=
  d <- get dataset "data" ;;
  match d with
  | VArr points => someM isTimePoint points
  | _ => Normal false
  end.

Definition pointToEntry (point : value) : completion value :=
  if isArray point then Normal point else
  match typeof point with
  | TObject =>
      x <- get point "x" ;;
      t <- get point "t" ;;
      timestamp <- get point "timestamp" ;;
      y <- get point "y" ;;
      v <- get point "value" ;;
      Normal (VArr [or_else (or_else x t) timestamp; or_else y v])
  | _ => Normal (VArr [VNum 0; point])
  end.

Definition datasetToSeries (dataset : value) : completion value :=
  label <- get dataset "label" ;;
  d <- get dataset "data" ;;
  points <- arrayMethod d ;;
  values <- mapM pointToEntry points ;;
  Normal (VObj [("name", or_else label (VStr "Series"));
                ("displayName", or_else label (VStr "Series"));
                ("values", VArr values)]).

(** The body of the loop for one query with truthy data: [Some] when it
    returns, [None] when the loop goes on to the next query. *)
Definition extractOne (d : value) : completion (option (value * DataType)) :=
  hasSeries <- has "series" d ;;
  series <- get d "series" ;;
  if hasSeries && isArray series then Normal (Some (d, timeseries)) else
  hasColumns <- has "columns" d ;;
  hasRows <- has "rows" d ;;
  if hasColumns && hasRows then Normal (Some (d, table)) else
  hasCategories <- has "categories" d ;;
  categories <- get d "categories" ;;
  bar <-
    (if hasCategories && hasSeries then
       if isArray categories && isArray series then
         elems <- arrayMethod series ;;
         everyM isBarSeries elems
       else Normal false
     else Normal false) ;;
  if bar then
    xAxis <- get d "xAxis" ;;
    yAxis <- get d "yAxis" ;;
    metadata <- get d "metadata" ;;
    Normal (Some (VObj [("categories", categories); ("series", series);
                        ("xAxis", xAxis); ("yAxis", yAxis);
                        ("metadata", metadata)], barchart))
  else
  firstItem <- (if isArray d && (0 <? arrayLength d)
                then elemAt d 0 else Normal VUndefined) ;;
  if isArray d && (0 <? arrayLength d) &&
     match firstItem with VObj _ | VArr _ => true | _ => false end
  then
    Normal (Some (VObj [("columns",
                         VArr (map (fun key => VObj [("name", VStr key);
                                                     ("displayName", VStr key)])
                                   (objectKeys firstItem)));
                        ("rows", d)], table))
  else
  match typeof d with
  | TObject =>
      labels <- get d "labels" ;;
      datasets <- get d "datasets" ;;
      if truthy labels && truthy datasets then
        elems <- arrayMethod datasets ;;
        series' <- mapM datasetToBarSeries (enumerate elems) ;;
        xAxis <- get d "xAxis" ;;
        yAxis <- get d "yAxis" ;;
        Normal (Some (VObj [("categories", labels);
                            ("series", VArr series');
                            ("xAxis", or_else xAxis
                                        (VObj [("title", VStr "Categories")]));
                            ("yAxis", or_else yAxis
                                        (VObj [("title", VStr "Values")]))],
                      barchart))
      else
      match datasets with
      | VArr elems =>
          hasTimeData <- someM hasTimePoints elems ;;
          if hasTimeData then
            series' <- mapM datasetToSeries elems ;;
            Normal (Some (VObj [("series", VArr series')], timeseries))
          else Normal None
      | _ => Normal None
      end
  | _ => Normal None
  end.

Fixpoint extractDataForExport (queryResults : list QueryData)
  : completion (value * DataType) :=
  match queryResults with
  | [] => Normal (VUndefined, unknown)
  | query :: rest =>
      if negb (truthy (data query)) then extractDataForExport rest else
      r <- extractOne (data query) ;;
      match r with
      | Some found => Normal found
      | None => extractDataForExport rest
      end
  end.

End PanelHeader.

(** ** PanelActions.tsx, the variant left with merge-conflict markers *)

(** The side marked [Updated upstream]: query results are a [QueryData[]]. *)
Module Upstream.

Inductive Indicator : Type :=
| Loading
| ErrorTooltip (errorTexts : string)
| NoIndicator.

(** [e?.message ?? e?.toString() ?? 'Unknown error'] *)
Definition errorText (e : ErrorObject) : string :=
  match message e with
  | Some m => m
  | None =>
      match toString e with
      | Some t => t
      | None => "Unknown error"
      end
  end.

Definition errorsOf (queryErrors : list QueryData) : list ErrorObject :=
  flat_map (fun q => match error q with Some e => [e] | None => [] end)
           queryErrors.

(** The conditional all variants share, on the three values computed before
    it. *)
Definition stateIndicator (hasData isFetching : bool)
    (queryErrors : list QueryData) : Indicator :=
  if isFetching && hasData then Loading
  else if (0 <? Z.of_nat (List.length queryErrors)) then
    ErrorTooltip (joinStr nl (map errorText (errorsOf queryErrors)))
  else NoIndicator.

Definition hasError (q : QueryData) : bool :=
  match error q with Some _ => true | None => false end.

Definition queryStateIndicator (queryResults : list QueryData) : Indicator :=
  let hasData := existsb (fun q => truthy (data q)) queryResults in
  let isFetching := existsb (fun q => PluginSystem.isFetching q) queryResults in
  let queryErrors := filter hasError queryResults in
  stateIndicator hasData isFetching queryErrors.

End Upstream.

(** The side marked [Stashed changes]: structural type guards and
    serializers without comment lines. *)
Module Stashed.

Definition isObject (d : value) : bool :=
  truthy d && match typeof d with TObject => true | _ => false end.

Definition isTimeSeriesData (d : value) : completion bool :=
  if negb (isObject d) then Normal false else
  hasSeries <- has "series" d ;;
  series <- get d "series" ;;
  Normal (hasSeries && isArray series).

Definition isBarChartData (d : value) : completion bool :=
  if negb (isObject d) then Normal false else
  hasCategories <- has "categories" d ;;
  hasSeries <- has "series" d ;;
  hasData <- has "data" d ;;
  d' <- get d "data" ;;
  Normal ((hasCategories && hasSeries) || (hasData && isArray d')).

Definition isTableData (d : value) : completion bool :=
  if negb (isObject d) then Normal false else
  hasColumns <- has "columns" d ;;
  hasRows <- has "rows" d ;;
  Normal (hasColumns && hasRows).

(** The quoting the stashed table export and the generic export apply to a
    cell. *)
Definition escapeText (cellStr : string) : string :=
  if includes cellStr comma || includes cellStr dquote ||
     includes cellStr newline
  then String dquote (doubleQuotes cellStr) ++ String dquote ""
  else cellStr.

Definition escapeCell (cell : value) : string :=
  escapeText (toStr (nullish_else cell (VStr ""))).

Definition exportTableData (d : value) : completion string :=
  columns <- get d "columns" ;;
  rows <- get d "rows" ;;
  if negb (truthy columns) || negb (truthy rows) then Normal "" else
  cols <- arrayMethod columns ;;
  rowList <- iterate rows ;;
  rowLines <- mapM (fun row =>
                      cells <- arrayMethod row ;;
                      Normal (joinStr "," (map escapeCell cells) ++ nl))
                   rowList ;;
  Normal (join "," cols ++ nl ++ lines rowLines).

End Stashed.

(** ** PanelHeader.tsx, the side marked [Stashed changes] *)

(** The header chooses the payload to export by the panel's type, with its
    own copies of the three type guards above and one more for traces. *)
Module StashedHeader.

(** ['timeseries' | 'bar' | 'table' | 'other'] *)
Inductive PanelType : Type :=
| Timeseries
| Bar
| Table
| Other.

(** What [dataForExport] holds: [undefined], the data of a query, the only
    query, or the query results as they came. *)
Inductive Exported : Type :=
| Undefined
| Data (d : value)
| Query (query : QueryData)
| Queries (queryResults : list QueryData).

Definition isTraceData (d : value) : completion bool :=
  if negb (Stashed.isObject d) then Normal false else
  hasSpans <- has "spans" d ;;
  spans <- get d "spans" ;;
  Normal (hasSpans && isArray spans).

(** The [switch] on the panel type, for a query with data: [true] when the
    loop returns that data. *)
Definition returnsData (panelType : PanelType) (d : value)
  : completion bool :=
  match panelType with
  | Timeseries => Stashed.isTimeSeriesData d
  | Bar => Stashed.isBarChartData d
  | Table => Stashed.isTableData d
  | Other => _ <- isTraceData d ;; Normal true
  end.

(** The first loop over the queries. *)
Fixpoint firstOfType (panelType : PanelType) (queryResults : list QueryData)
  : completion (option value) :=
  match queryResults with
  | [] => Normal None
  | query :: rest =>
      if truthy (data query) then
        found <- returnsData panelType (data query) ;;
        if found then Normal (Some (data query))
        else firstOfType panelType rest
      else firstOfType panelType rest
  end.

(** The second loop: the first data there is. *)
Fixpoint firstData (queryResults : list QueryData) : option value :=
  match queryResults with
  | [] => None
  | query :: rest =>
      if truthy (data query) then Some (data query) else firstData rest
  end.

Definition dataForExport (queryResults : list QueryData)
    (panelType : PanelType) : completion Exported :=
  match queryResults with
  | [] => Normal Undefined
  | _ :: _ =>
      found <- firstOfType panelType queryResults ;;
      match found with
      | Some d => Normal (Data d)
      | None =>
          match firstData queryResults with
          | Some d => Normal (Data d)
          | None =>
              match queryResults with
              | [query] => Normal (Query query)
              | _ => Normal (Queries queryResults)
              end
          end
      end
  end.

End StashedHeader.

Import PanelActions.

(** * Notions used by the statements, and example payloads *)

(** An element of [series] carries an array-valued [values] field. *)
Definition carriesValues (e : value) : Prop :=
  exists vals, get e "values" = Normal (VArr vals).



Definition seriesA : value :=
  VObj [("name", VStr "A");
        ("values", VArr [VArr [VNum 0; VNum 1]; VArr [VNum 60; VNum 2]])].

Definition seriesB : value :=
  VObj [("name", VStr "B"); ("values", VArr [VArr [VNum 0; VNum 10]])].


(** A time-series payload handed to the table serializer: what the handler
    receives when the panel's [dataType] hint says 'table'. *)
Definition timeSeriesAsTable : value :=
  VObj [("series",
         VArr [VObj [("name", VStr "a");
                     ("values", VArr [VArr [VNum 0; VNum 1]])]])].

(** A table whose only cell holds the text: say "hi" *)
Definition sayHi : string :=
  "say " ++ String dquote "hi" ++ String dquote "".

Definition quotedCellTable : value :=
  VObj [("columns", VArr [VObj [("name", VStr "msg")]]);
        ("rows", VArr [VObj [("msg", VStr sayHi)]])].

Definition emptyRowsTable : value :=
  VObj [("columns", VArr [VObj [("name", VStr "ns")]]); ("rows", VArr [])].

(** A series stamped in nanoseconds since the epoch. *)
Definition nanosecondPayload : value :=
  VObj [("series",
         VArr [VObj [("name", VStr "up");
                     ("values",
                      VArr [VArr [VNum 1700000000000000000; VNum 1]])]])].

(** A reader of one CSV field, as RFC 4180 defines it: a field that opens
    with a double quote runs to the closing quote, two double quotes inside
    standing for one; any other field is taken as it is and holds no comma,
    double quote or line break. *)
Fixpoint unquote (s : string) : option string :=
  match s with
  | EmptyString => None
  | String a rest =>
      if Ascii.eqb a dquote then
        match rest with
        | EmptyString => Some EmptyString
        | String b rest' =>
            if Ascii.eqb b dquote
            then option_map (String dquote) (unquote rest')
            else None
        end
      else option_map (String a) (unquote rest)
  end.

Definition parseField (s : string) : option string :=
  match s with
  | EmptyString => Some EmptyString
  | String a rest =>
      if Ascii.eqb a dquote then unquote rest
      else if includes s comma || includes s dquote || includes s newline
           then None
           else Some s
  end.

(** The errors the query results carry, in order. *)
Definition carriedErrors (queryResults : list QueryData) : list ErrorObject :=
  flat_map (fun q => match error q with Some e => [e] | None => [] end)
           queryResults.

Definition someFetching (queryResults : list QueryData) : Prop :=
  exists q, In q queryResults /\ isFetching q = true.

Definition someData (queryResults : list QueryData) : Prop :=
  exists q, In q queryResults /\ truthy (data q) = true.

(** The test the serializers apply to a required field: [!d.k]. *)
Definition missing (d : value) (k : string) : Prop :=
  truthy (getOpt d k) = false.

(** The required field of the time-series serializer is missing, is not an
    array, or is an empty array. *)
Definition noSeries (d : value) : Prop :=
  missing d "series" \/ isArray (getOpt d "series") = false \/
  getOpt d "series" = VArr [].

(** ** The time-series export, told declaratively *)

Section TimeSeriesSpec.

Variable Date_parse : string -> option Z.

(** The row key and the value an entry contributes to the export; [None]
    for an entry the loop skips. *)
Definition entryCell (entry : value) : option (string * value) :=
  match entry with
  | VArr (timestamp :: v :: _) =>
      match entryDateTime Date_parse timestamp with
      | Normal (Some dateTime) => Some (dateTime, v)
      | _ => None
      end
  | _ => None
  end.

(** The value of the last entry of a series at the row key [k]. *)
Definition lastValueFrom (acc : option value) (entries : list value)
    (k : string) : option value :=
  fold_left (fun acc e =>
               match entryCell e with
               | Some (k', v) => if String.eqb k' k then Some v else acc
               | None => acc
               end) entries acc.

Definition lastValue (entries : list value) (k : string) : option value :=
  lastValueFrom None entries k.

(** The text of a cell: empty when the series has no value at the row, or a
    [null] or [undefined] one. *)
Definition cellText (o : option value) : string :=
  match o with
  | Some v => elemStr v
  | None => ""
  end.

(** A series the export keeps: its index in [data.series], the series and
    the entries of its [values] array. *)
Definition Kept : Type := nat * value * list value.

Fixpoint keptFrom (i : nat) (series : list value) : list Kept :=
  match series with
  | [] => []
  | s :: rest =>
      if truthy s then
        match getOpt s "values" with
        | VArr entries => (i, s, entries) :: keptFrom (S i) rest
        | _ => keptFrom (S i) rest
        end
      else keptFrom (S i) rest
  end.

(** The legend name of a series: the first truthy one of its name fields,
    else "Series n". *)
Definition chainName (s : value) (i : nat) : value :=
  match find truthy [getOpt s "formattedName"; getOpt s "legendName";
                     getOpt s "displayName"; getOpt s "legend";
                     getOpt s "name"] with
  | Some v => v
  | None => VStr ("Series " ++ Z_to_string (Z.of_nat i + 1))
  end.

Definition keptColumn (kept : Kept) : string :=
  seriesNumber (fst (fst kept)).

Definition specLegendLine (kept : Kept) : string :=
  "# " ++ keptColumn kept ++ ": " ++
  toStr (chainName (snd (fst kept)) (fst (fst kept))) ++ nl.

Definition specPreamble (kept : list Kept) : string :=
  "# Legend Information:" ++ nl ++
  lines (map specLegendLine kept) ++
  "#" ++ nl ++
  "DateTime," ++ joinStr "," (map keptColumn kept) ++ nl.

Definition specRow (kept : list Kept) (k : string) : string :=
  k ++ "," ++
  joinStr "," (map (fun s : Kept => cellText (lastValue (snd s) k)) kept) ++
  nl.

(** [k] is the row key of some entry of some kept series. *)
Definition isRowKey (kept : list Kept) (k : string) : Prop :=
  exists s e v, In s kept /\ In e (snd s) /\ entryCell e = Some (k, v).

(** The loops over the entries and over the series, as pure folds. *)
Definition applyEntry (column : string) (result : ResultMap) (e : value)
  : ResultMap :=
  match entryCell e with
  | Some (k, v) => setCell result k column v
  | None => result
  end.

Definition applyEntries (column : string) (entries : list value)
    (result : ResultMap) : ResultMap :=
  fold_left (applyEntry column) entries result.

Definition applySeries (kept : list Kept) (result : ResultMap) : ResultMap :=
  fold_left (fun r s => applyEntries (keptColumn s) (snd s) r) kept result.

Definition keptMetadata (s : Kept) : SeriesMetadata :=
  mkSeriesMetadata (chainName (snd (fst s)) (fst (fst s))) (keptColumn s).

End TimeSeriesSpec.

(** A [Date.parse] that recognises no string, for the examples whose
    timestamps are all numbers. *)
Definition noParse : string -> option Z := fun _ => None.

(** *** C2 as the specification words it *)

(** [formattedName ?? legendName ?? displayName ?? legend ?? name ??
    "Series n"] *)
Definition claimedName (i : nat) (s : value) : string :=
  toStr
    match find (fun v => negb (nullish v))
               [getOpt s "formattedName"; getOpt s "legendName";
                getOpt s "displayName"; getOpt s "legend";
                getOpt s "name"] with
    | Some v => v
    | None => VStr ("Series " ++ Z_to_string (Z.of_nat i + 1))
    end.

(** The unique names, in first-seen order. *)
Fixpoint uniqueNames (seen names : list string) : list string :=
  match names with
  | [] => []
  | n :: rest =>
      if existsb (String.eqb n) seen then uniqueNames seen rest
      else n :: uniqueNames (n :: seen) rest
  end.

Definition claimedHeader (series : list value) : string :=
  "DateTime," ++
  joinStr "," (uniqueNames []
                 (map (fun p => claimedName (fst p) (snd p))
                      (enumerate series))).

(** The lines of a text, and its header row: the first line that is not a
    comment. *)
Fixpoint splitLines (cur s : string) : list string :=
  match s with
  | EmptyString => match cur with EmptyString => [] | _ => [cur] end
  | String c rest =>
      if Ascii.eqb c newline then cur :: splitLines "" rest
      else splitLines (cur ++ String c "") rest
  end.

Definition isComment (line : string) : bool :=
  match line with
  | String c _ => Ascii.eqb c "#"%char
  | EmptyString => false
  end.

Definition headerRow (csv : string) : option string :=
  find (fun line => negb (isComment line)) (splitLines "" csv).

Definition cpuSeries (v : Z) : value :=
  VObj [("name", VStr "cpu"); ("values", VArr [VArr [VNum 0; VNum v]])].

(** Two series that both resolve to the name "cpu". *)
Definition sameNamePayload : value :=
  VObj [("series", VArr [cpuSeries 1; cpuSeries 2])].

(** The example of the specification: A and B, in seconds. *)
Definition alignmentPayload : value :=
  VObj [("series", VArr [seriesA; seriesB])].

(** One sample in the year 10000 and one at the epoch. *)
Definition farFuturePayload : value :=
  VObj [("series",
         VArr [VObj [("name", VStr "A");
                     ("values", VArr [VArr [VNum 253402300800000; VNum 1];
                                      VArr [VNum 0; VNum 2]])]])].

(** The year of a time value prints on four digits (years 0000 to 9999). *)
Definition fourDigitYear (t : Z) : Prop :=
  0 <= f_year (fieldsOf t) <= 9999.

(** Lexicographic combination of comparisons, and the comparison of calendar
    fields from the year down to the millisecond. *)
Definition lexi (c1 c2 : comparison) : comparison :=
  match c1 with
  | Eq => c2
  | _ => c1
  end.

Definition compareFields (f1 f2 : fields) : comparison :=
  lexi (f_year f1 ?= f_year f2)
    (lexi (f_month f1 ?= f_month f2)
       (lexi (f_date f1 ?= f_date f2)
          (lexi (f_hour f1 ?= f_hour f2)
             (lexi (f_min f1 ?= f_min f2)
                (lexi (f_sec f1 ?= f_sec f2)
                   (f_ms f1 ?= f_ms f2)))))).

Definition cellAt (result : ResultMap) (k column : string) : option value :=
  match lookup result k with
  | Some row => lookup row column
  | None => None
  end.

Definition ascending (a b : string) : Prop := String.ltb a b = true.

(** ** The bar-chart export, told declaratively *)






(** ** The extraction of PanelHeader, told declaratively *)

Definition objectLike (v : value) : bool :=
  match v with VObj _ | VArr _ => true | _ => false end.

(** The table made of an array of objects: one column per key of the first
    item, named and displayed by that key. *)
Definition keyColumn (key : string) : value :=
  VObj [("name", VStr key); ("displayName", VStr key)].

Definition itemsAsTable (first : value) (items : list value) : value :=
  VObj [("columns", VArr (map keyColumn (objectKeys first)));
        ("rows", VArr items)].




(** [k in obj] for the properties of an object. *)
Definition hasOwn (props : list (string * value)) (k : string) : bool :=
  match lookup props k with Some _ => true | None => false end.

(** The bar chart and the time series made of a [labels]/[datasets]
    payload. *)
Definition datasetsAsBarChart (d : value) (series' : list value) : value :=
  VObj [("categories", getOpt d "labels");
        ("series", VArr series');
        ("xAxis", or_else (getOpt d "xAxis")
                    (VObj [("title", VStr "Categories")]));
        ("yAxis", or_else (getOpt d "yAxis")
                    (VObj [("title", VStr "Values")]))].

Definition datasetsAsTimeSeries (series' : list value) : value :=
  VObj [("series", VArr series')].

(** * Properties *)

(** ** Strings *)

Lemma append_nil_r (a : string) : a ++ "" = a.
Proof.
  induction a as [|x a IH]; simpl; [reflexivity | now rewrite IH].
Qed.

Lemma append_assoc (a b c : string) : (a ++ b) ++ c = a ++ (b ++ c).
Proof.
  induction a as [|x a IH]; simpl; [reflexivity | now rewrite IH].
Qed.

(** ** Objects as association lists *)

Lemma lookup_objSet_same {A : Type} (props : list (string * A)) k v :
  lookup (objSet props k v) k = Some v.
Proof.
  induction props as [|[k' v'] rest IH]; simpl.
  - now rewrite String.eqb_refl.
  - destruct (String.eqb k' k) eqn:E; simpl; rewrite E; auto.
Qed.

Lemma lookup_objSet_other {A : Type} (props : list (string * A)) k k' v :
  k <> k' -> lookup (objSet props k v) k' = lookup props k'.
Proof.
  intros Hne.
  induction props as [|[k0 v0] rest IH]; simpl.
  - destruct (String.eqb k k') eqn:E; auto.
    apply String.eqb_eq in E. contradiction.
  - destruct (String.eqb k0 k) eqn:E; simpl.
    + apply String.eqb_eq in E. subst k0.
      destruct (String.eqb k k') eqn:E'; auto.
      apply String.eqb_eq in E'. contradiction.
    + now rewrite IH.
Qed.

(** ** The classifier *)

(** Case analysis on every test a hypothesis still branches on. *)
Ltac split_cases H :=
  unfold bind in H;
  repeat (match type of H with
          | context [match ?x with _ => _ end] => destruct x eqn:?
          end; simpl in H; try discriminate H).

(** The time-series probe looks at [series[0].values] and at nothing else. *)
Lemma first_series_decides props first later :
  lookup props "series" = Some (VArr (first :: later)) ->
  detectDataType (VObj props) = Normal timeseries <-> carriesValues first.
Proof.
  intros Hs.
  unfold carriesValues, detectDataType. simpl. rewrite Hs. simpl.
  unfold elemAt. simpl.
  destruct (get first "values") as [v|e] eqn:Hv; simpl.
  - destruct v; simpl; rewrite ?andb_false_r;
      try (split; [intros H; exfalso; split_cases H
                  | intros [vals Hvals]; discriminate Hvals]).
    split; eauto.
  - split; [discriminate | intros [vals Hvals]; discriminate Hvals].
Qed.

(** C9: with a non-empty [series] array, [detectDataType] answers
    'timeseries' exactly when the first element of [series] has an
    array-valued [values] field, and the elements after the first are never
    inspected: replacing them by any others leaves the answer unchanged. *)
Theorem detectDataType_inspects_first_series_only :
  forall (props : list (string * value)) (first : value) (later : list value),
    lookup props "series" = Some (VArr (first :: later)) ->
    (detectDataType (VObj props) = Normal timeseries <-> carriesValues first)
    /\
    (forall later' : list value,
        detectDataType
          (VObj (objSet props "series" (VArr (first :: later')))) =
        detectDataType (VObj props)).
Proof.
  intros props first later Hs. split.
  - now apply first_series_decides with (later := later).
  - intros later'. unfold detectDataType. simpl.
    rewrite lookup_objSet_same.
    rewrite !lookup_objSet_other by discriminate.
    rewrite Hs. reflexivity.
Qed.

Lemma detectDataType_inspects_first_series_only_witness :
  detectDataType
    (VObj [("series", VArr [VObj [("name", VStr "a")];
                            VObj [("values", VArr [])]])]) <>
  Normal timeseries.
Proof.
  intros H.
  destruct (detectDataType_inspects_first_series_only
              [("series", VArr [VObj [("name", VStr "a")];
                                VObj [("values", VArr [])]])]
              (VObj [("name", VStr "a")]) [VObj [("values", VArr [])]]
              eq_refl) as [Hiff _].
  apply Hiff in H. destruct H as [vals Hvals]. discriminate Hvals.
Defined.






(** ** The query state indicator *)

Lemma errorsOf_filter queryResults :
  Upstream.errorsOf (filter Upstream.hasError queryResults) =
  carriedErrors queryResults.
Proof.
  unfold Upstream.errorsOf, carriedErrors.
  induction queryResults as [|q rest IH]; simpl; auto.
  unfold Upstream.hasError at 1.
  destruct (error q) eqn:E; simpl; rewrite ?E, IH; reflexivity.
Qed.

Lemma filter_hasError_nil queryResults :
  filter Upstream.hasError queryResults = [] <->
  carriedErrors queryResults = [].
Proof.
  unfold carriedErrors.
  induction queryResults as [|q rest IH]; simpl; [tauto|].
  unfold Upstream.hasError at 1.
  destruct (error q); simpl; [split; discriminate | exact IH].
Qed.

Lemma existsb_someFetching queryResults :
  existsb (fun q => isFetching q) queryResults = true <->
  someFetching queryResults.
Proof.
  unfold someFetching. rewrite existsb_exists. reflexivity.
Qed.

Lemma existsb_someData queryResults :
  existsb (fun q => truthy (data q)) queryResults = true <->
  someData queryResults.
Proof.
  unfold someData. rewrite existsb_exists. reflexivity.
Qed.

(** The variants that hard-code [isFetching = false] and [queryErrors = []]
    never render an indicator. *)
Lemma stateIndicator_constants hasData :
  Upstream.stateIndicator hasData false [] = Upstream.NoIndicator.
Proof. reflexivity. Qed.

(** C8: the indicator is Loading exactly when some result is fetching and
    some result has data, also when results carry errors (Loading is tested
    first).  Otherwise, when some result carries an error, it is the error
    tooltip whose text joins the messages of all carried errors with
    newlines; a message is the error's [message], else its string form,
    else "Unknown error". *)
Theorem queryStateIndicator_loading_before_error :
  forall queryResults : list QueryData,
    (Upstream.queryStateIndicator queryResults = Upstream.Loading <->
       someFetching queryResults /\ someData queryResults) /\
    (~ (someFetching queryResults /\ someData queryResults) ->
     carriedErrors queryResults <> [] ->
     Upstream.queryStateIndicator queryResults =
       Upstream.ErrorTooltip
         (joinStr nl (map Upstream.errorText (carriedErrors queryResults)))) /\
    (forall e : ErrorObject,
        Upstream.errorText e =
          match message e, toString e with
          | Some m, _ => m
          | None, Some t => t
          | None, None => "Unknown error"
          end).
Proof.
  intros queryResults.
  unfold Upstream.queryStateIndicator, Upstream.stateIndicator.
  rewrite errorsOf_filter.
  destruct (existsb (fun q => isFetching q) queryResults) eqn:Ef;
    destruct (existsb (fun q => truthy (data q)) queryResults) eqn:Ed;
    simpl.
  1: { rewrite existsb_someFetching in Ef. rewrite existsb_someData in Ed.
       split; [tauto|]. split; [tauto|].
       intros e. unfold Upstream.errorText. now destruct (message e). }
  all: assert (Hno : ~ (someFetching queryResults /\ someData queryResults))
    by (rewrite <- existsb_someFetching, <- existsb_someData;
        rewrite Ef, Ed; intros [? ?]; discriminate).
  all: split; [|split].
  all: try (intros e; unfold Upstream.errorText; now destruct (message e)).
  all: try (intros _ Herr;
            destruct (filter Upstream.hasError queryResults) eqn:Efil;
            [apply filter_hasError_nil in Efil; contradiction
            | reflexivity]).
  all: split; [|tauto].
  all: destruct (0 <? Z.of_nat (List.length (filter Upstream.hasError queryResults)));
    discriminate.
Qed.

Lemma queryStateIndicator_loading_before_error_witness :
  Upstream.queryStateIndicator
    [mkQueryData (VObj []) false (Some (mkError (Some "boom") None));
     mkQueryData VUndefined false (Some (mkError None None))] =
  Upstream.ErrorTooltip ("boom" ++ nl ++ "Unknown error").
Proof.
  refine (proj1 (proj2 (queryStateIndicator_loading_before_error _)) _ _).
  - intros [[q [Hin Hq]] _].
    simpl in Hin. destruct Hin as [<-|[<-|[]]]; discriminate Hq.
  - discriminate.
Defined.

(** ** The export handler *)

(** Under a shape hint the handler downloads a file whenever the serializer
    of that shape returns the empty string: the result is appended to the
    comment header and never tested. *)
Lemma createCsvExportHandler_ignores_empty_csv
    (Date_parse : string -> option Z) (Date_now : Z) (title : string)
    (queryResults : value) (shape : DataType) (exported : string) :
  truthy queryResults = true ->
  shape <> unknown ->
  toISOString Date_now = Normal exported ->
  toCsv Date_parse queryResults shape title = Normal "" ->
  createCsvExportHandler Date_parse Date_now title queryResults (Some shape) =
  Normal (Download (title ++ "_" ++ DataType_str shape ++ "_data.csv")
            ("# Chart: " ++ title ++ nl ++
             "# Data Type: " ++ DataType_str shape ++ nl ++
             "# Exported: " ++ exported ++ nl)).
Proof.
  intros Hq Hshape Hnow Hcsv. unfold createCsvExportHandler.
  rewrite Hq, Hnow. cbn [negb bind].
  destruct shape; try congruence; cbn [toCsv] in Hcsv; rewrite Hcsv;
    cbn [bind]; do 2 f_equal;
    repeat (rewrite append_assoc; f_equal);
    now rewrite append_nil_r.
Qed.

(** C4: the failing input.  A time-series payload exported under the
    'table' hint: the table serializer finds no [columns] and returns the
    empty string, the export button is rendered, and the handler still
    downloads a file holding the three comment lines. *)
Theorem createCsvExportHandler_downloads_on_empty_csv :
  forall Date_parse : string -> option Z,
    toCsv Date_parse timeSeriesAsTable table "Pods" = Normal "" /\
    csvExportButton timeSeriesAsTable (Some table) =
      Normal (Some "Export table data as CSV") /\
    createCsvExportHandler Date_parse 1700000000000 "Pods"
                           timeSeriesAsTable (Some table) =
      Normal (Download "Pods_table_data.csv"
                ("# Chart: Pods" ++ nl ++
                 "# Data Type: table" ++ nl ++
                 "# Exported: 2023-11-14T22:13:20.000Z" ++ nl)).
Proof.
  intros Date_parse. repeat split.
Qed.

(** ** Escaping of table cells *)



(** C5: the failing input.  The table serializer quotes a cell only when it
    holds a comma: the cell [say "hi"] is written as it is, so a CSV reader
    does not give the text back, whereas the quoting of the stashed variant
    wraps it and doubles the inner quotes. *)
Theorem exportTableData_writes_quote_unescaped :
  exportTableData quotedCellTable "Logs" =
    Normal ("# Column Information:" ++ nl ++
            "# msg: msg" ++ nl ++
            "#" ++ nl ++
            "msg" ++ nl ++
            sayHi ++ nl) /\
  tableCell (VObj [("msg", VStr sayHi)]) (VObj [("name", VStr "msg")]) =
    Normal sayHi /\
  parseField sayHi <> Some sayHi /\
  Stashed.escapeCell (VStr sayHi) =
    String dquote (doubleQuotes sayHi) ++ String dquote "" /\
  parseField (Stashed.escapeCell (VStr sayHi)) = Some sayHi.
Proof.
  repeat split. discriminate.
Qed.

(** ** Invalid dates *)

(** C10: the failing input.  A timestamp in nanoseconds is a number above
    the threshold, is taken as milliseconds, and lies outside the range of
    valid time values: [toISOString] throws a RangeError, which leaves the
    serializer and the export handler. *)
Theorem exportTimeSeriesData_throws_on_invalid_date :
  forall (Date_parse : string -> option Z) (title : string),
    detectDataType nanosecondPayload = Normal timeseries /\
    exportTimeSeriesData Date_parse nanosecondPayload title =
      Throw RangeError /\
    createCsvExportHandler Date_parse 1700000000000 title
                           nanosecondPayload None =
      Throw RangeError.
Proof.
  intros. repeat split.
Qed.

(** A string timestamp that does not parse to a date throws as well. *)
Lemma exportTimeSeriesData_throws_on_unparsed_string
    (Date_parse : string -> option Z) (s title : string) (v : value) :
  Date_parse s = None ->
  exportTimeSeriesData Date_parse
    (VObj [("series",
            VArr [VObj [("values", VArr [VArr [VStr s; v]])]])]) title =
  Throw RangeError.
Proof.
  intros Hs. unfold exportTimeSeriesData. simpl.
  unfold processEntry, elemAt. simpl. unfold entryDateTime. simpl.
  now rewrite Hs.
Qed.

(** ** Nothing to export *)

Lemma bind_Normal {A B : Type} (c : completion A) (k : A -> completion B) b :
  bind c k = Normal b -> exists a, c = Normal a /\ k a = Normal b.
Proof.
  destruct c as [a|e]; simpl; [eauto | discriminate].
Qed.

(** Peel the binds of a hypothesis [c >>= k = Normal b]. *)
Ltac peel H :=
  repeat (let a := fresh "a" in
          let Ha := fresh "Ha" in
          apply bind_Normal in H; destruct H as (a & Ha & H)).

Lemma exportTimeSeriesData_empty parse props title :
  exportTimeSeriesData parse (VObj props) title = Normal "" <->
  noSeries (VObj props).
Proof.
  unfold exportTimeSeriesData, noSeries, missing, getOpt. simpl.
  destruct (lookup props "series") as [series|]; simpl; [|tauto].
  destruct series as [| |b|n|s|elems|props']; simpl; rewrite ?orb_true_r;
    try (split; [auto | reflexivity]).
  destruct elems as [|first later]; simpl; [tauto|].
  split.
  - intros H. peel H. discriminate H.
  - intros [H|[H|H]]; discriminate H.
Qed.

Lemma exportTableData_empty props title :
  exportTableData (VObj props) title = Normal "" <->
  missing (VObj props) "columns" \/ missing (VObj props) "rows".
Proof.
  unfold exportTableData, missing, getOpt. simpl.
  destruct (truthy match lookup props "columns" with
                   | Some x => x | None => VUndefined end); simpl.
  - destruct (truthy match lookup props "rows" with
                     | Some x => x | None => VUndefined end); simpl.
    + split.
      * intros H. peel H. discriminate H.
      * intros [H|H]; discriminate H.
    + tauto.
  - tauto.
Qed.

Lemma exportBarChartData_empty props title :
  exportBarChartData (VObj props) title = Normal "" <->
  missing (VObj props) "categories" \/ missing (VObj props) "series".
Proof.
  unfold exportBarChartData, missing, getOpt. simpl.
  destruct (truthy match lookup props "categories" with
                   | Some x => x | None => VUndefined end); simpl.
  - destruct (truthy match lookup props "series" with
                     | Some x => x | None => VUndefined end); simpl.
    + split.
      * intros H. peel H. discriminate H.
      * intros [H|H]; discriminate H.
    + tauto.
  - tauto.
Qed.


Lemma detectDataType_shape_fields props shape :
  detectDataType (VObj props) = Normal shape ->
  match shape with
  | timeseries =>
      exists first later, getOpt (VObj props) "series" = VArr (first :: later)
  | table =>
      truthy (getOpt (VObj props) "columns") = true /\
      truthy (getOpt (VObj props) "rows") = true
  | barchart =>
      truthy (getOpt (VObj props) "categories") = true /\
      truthy (getOpt (VObj props) "series") = true
  | unknown => True
  end.
Proof.
  unfold detectDataType, getOpt. simpl. intros H.
  destruct shape; [| | |exact I].
  - destruct (match lookup props "series" with
              | Some x => x | None => VUndefined end) as [| |b|n|s|elems|ps];
      simpl in H; rewrite ?andb_false_r in H; simpl in H;
      try (exfalso; split_cases H; fail).
    destruct elems as [|first later]; [|eauto].
    exfalso. simpl in H. split_cases H.
  - split_cases H.
    all: repeat match goal with
           | E : _ && _ = true |- _ => apply andb_prop in E; destruct E
           end; auto.
  - set (cats := match lookup props "categories" with
                  | Some x => x | None => VUndefined end) in *.
    set (ser := match lookup props "series" with
                | Some x => x | None => VUndefined end) in *.
    destruct (truthy cats && isArray cats && truthy ser && isArray ser)
      eqn:E.
    + repeat match goal with
             | E : _ && _ = true |- _ => apply andb_prop in E; destruct E
             end; auto.
    + exfalso. split_cases H.
Qed.




(** ** The time-series serializer *)

Lemma get_truthy v k :
  truthy v = true -> get v k = Normal (getOpt v k).
Proof.
  destruct v; simpl; try discriminate; reflexivity.
Qed.

Lemma getSeriesLegendName_spec s i :
  truthy s = true ->
  getSeriesLegendName s i =
  Normal (mkSeriesMetadata (chainName s i) (seriesNumber i)).
Proof.
  intros Hs. unfold getSeriesLegendName.
  rewrite !(get_truthy s _ Hs). simpl.
  unfold chainName, seriesNumber, or_else. simpl.
  destruct (truthy (getOpt s "formattedName")) eqn:E1;
    destruct (truthy (getOpt s "legendName")) eqn:E2;
    destruct (truthy (getOpt s "displayName")) eqn:E3;
    destruct (truthy (getOpt s "legend")) eqn:E4;
    destruct (truthy (getOpt s "name")) eqn:E5;
    repeat (rewrite ?E1, ?E2, ?E3, ?E4, ?E5; simpl); reflexivity.
Qed.

Lemma processEntry_spec parse column result e result' :
  processEntry parse column result e = Normal result' ->
  result' = applyEntry parse column result e.
Proof.
  unfold processEntry, applyEntry, entryCell.
  destruct e as [| |b|n|s|elems|ps]; simpl; try congruence.
  destruct elems as [|timestamp [|v rest]]; simpl; try congruence.
  replace (Z.pos (Pos.succ (Pos.of_succ_nat (List.length rest))) <? 2)
    with false by (symmetry; apply Z.ltb_ge; lia).
  unfold elemAt. simpl.
  destruct (entryDateTime parse timestamp) as [[k|]|]; simpl; congruence.
Qed.

Lemma foldM_processEntry_spec parse column entries result result' :
  foldM (processEntry parse column) entries result = Normal result' ->
  result' = applyEntries parse column entries result.
Proof.
  revert result.
  induction entries as [|e rest IH]; simpl; intros result H.
  - congruence.
  - apply bind_Normal in H. destruct H as (r1 & H1 & H).
    apply processEntry_spec in H1. subst r1.
    now apply IH.
Qed.

Lemma processSeries_spec parse series :
  forall i info result info' result',
    processSeries parse i series (info, result) = Normal (info', result') ->
    info' = (info ++ map (keptMetadata) (keptFrom i series))%list /\
    result' = applySeries parse (keptFrom i series) result.
Proof.
  induction series as [|s rest IH]; simpl; intros i info result info' result' H.
  - inversion H. now rewrite app_nil_r.
  - destruct (truthy s) eqn:Hs; simpl in H; [|now apply IH].
    rewrite (get_truthy s _ Hs) in H. simpl in H.
    destruct (getOpt s "values") as [| |b|n|str|entries|ps];
      try (now apply IH).
    rewrite (getSeriesLegendName_spec s i Hs) in H. simpl in H.
    apply bind_Normal in H. destruct H as (r1 & H1 & H).
    apply foldM_processEntry_spec in H1. subst r1.
    apply IH in H. destruct H as [-> ->]. simpl.
    rewrite <- app_assoc. split; reflexivity.
Qed.

(** *** The result object *)

Lemma lookup_None {A : Type} (props : list (string * A)) k :
  lookup props k = None <-> ~ In k (keys props).
Proof.
  induction props as [|[k' v'] rest IH]; simpl.
  - tauto.
  - destruct (String.eqb k' k) eqn:E.
    + apply String.eqb_eq in E. split; [discriminate | tauto].
    + apply String.eqb_neq in E. rewrite IH. tauto.
Qed.

Lemma keys_objSet_present {A : Type} (props : list (string * A)) k v :
  In k (keys props) -> keys (objSet props k v) = keys props.
Proof.
  induction props as [|[k' v'] rest IH]; simpl; [tauto|].
  intros Hin. destruct (String.eqb k' k) eqn:E; simpl; [reflexivity|].
  apply String.eqb_neq in E. f_equal. apply IH. tauto.
Qed.

Lemma keys_objSet_absent {A : Type} (props : list (string * A)) k v :
  ~ In k (keys props) -> keys (objSet props k v) = (keys props ++ [k])%list.
Proof.
  induction props as [|[k' v'] rest IH]; simpl; [reflexivity|].
  intros Hin. destruct (String.eqb k' k) eqn:E; simpl.
  - apply String.eqb_eq in E. tauto.
  - f_equal. apply IH. tauto.
Qed.

Lemma in_keys_objSet {A : Type} (props : list (string * A)) k v k' :
  In k' (keys (objSet props k v)) <-> k' = k \/ In k' (keys props).
Proof.
  destruct (in_dec string_dec k (keys props)) as [Hin|Hin].
  - rewrite keys_objSet_present by assumption.
    split; [tauto | intros [->|H]; assumption].
  - rewrite keys_objSet_absent by assumption.
    rewrite in_app_iff. simpl. split; [intros [H|[H|[]]]; auto | ].
    intros [->|H]; auto.
Qed.

Lemma NoDup_keys_objSet {A : Type} (props : list (string * A)) k v :
  NoDup (keys props) -> NoDup (keys (objSet props k v)).
Proof.
  intros Hnd.
  destruct (in_dec string_dec k (keys props)) as [Hin|Hin].
  - now rewrite keys_objSet_present.
  - rewrite keys_objSet_absent by assumption.
    apply NoDup_app; [assumption | repeat constructor; simpl; tauto | ].
    intros x Hx [<-|[]]. contradiction.
Qed.

Lemma cellAt_setCell result k column v k' column' :
  cellAt (setCell result k column v) k' column' =
  if String.eqb k k' && String.eqb column column' then Some v
  else cellAt result k' column'.
Proof.
  unfold cellAt, setCell.
  destruct (String.eqb k k') eqn:Ek; simpl.
  - apply String.eqb_eq in Ek. subst k'.
    rewrite lookup_objSet_same.
    destruct (String.eqb column column') eqn:Ec.
    + apply String.eqb_eq in Ec. subst column'.
      apply lookup_objSet_same.
    + apply String.eqb_neq in Ec.
      rewrite lookup_objSet_other by assumption.
      destruct (lookup result k); reflexivity.
  - apply String.eqb_neq in Ek.
    now rewrite lookup_objSet_other by assumption.
Qed.

Lemma in_keys_setCell result k column v k' :
  In k' (keys (setCell result k column v)) <-> k' = k \/ In k' (keys result).
Proof. unfold setCell. apply in_keys_objSet. Qed.

Lemma NoDup_keys_setCell result k column v :
  NoDup (keys result) -> NoDup (keys (setCell result k column v)).
Proof. unfold setCell. apply NoDup_keys_objSet. Qed.

(** *** The loop over the entries of one series *)

Section Entries.

Variable Date_parse : string -> option Z.

Lemma cellAt_applyEntries column entries :
  forall result k c,
    cellAt (applyEntries Date_parse column entries result) k c =
    if String.eqb column c
    then lastValueFrom Date_parse (cellAt result k c) entries k
    else cellAt result k c.
Proof.
  unfold applyEntries, lastValueFrom.
  induction entries as [|e rest IH]; simpl; intros result k c.
  - destruct (String.eqb column c); reflexivity.
  - rewrite IH. unfold applyEntry.
    destruct (entryCell Date_parse e) as [[k' v]|]; [|reflexivity].
    rewrite cellAt_setCell.
    destruct (String.eqb column c) eqn:Ec.
    + rewrite andb_true_r. reflexivity.
    + rewrite andb_false_r. reflexivity.
Qed.

Lemma in_keys_applyEntries column entries :
  forall result k,
    In k (keys (applyEntries Date_parse column entries result)) <->
    In k (keys result) \/
    exists e v, In e entries /\ entryCell Date_parse e = Some (k, v).
Proof.
  unfold applyEntries.
  induction entries as [|e rest IH]; simpl; intros result k.
  - split; [auto | intros [H|(e & v & [] & _)]; exact H].
  - rewrite IH. unfold applyEntry.
    destruct (entryCell Date_parse e) as [[k' v]|] eqn:Ee.
    + rewrite in_keys_setCell. split.
      * intros [[->|H]|(e' & v' & Hin & He')]; eauto 6.
      * intros [H|(e' & v' & [<-|Hin] & He')]; eauto 6.
        rewrite Ee in He'. inversion He'. auto.
    + split.
      * intros [H|(e' & v' & Hin & He')]; eauto 6.
      * intros [H|(e' & v' & [<-|Hin] & He')]; eauto 6.
        rewrite Ee in He'. discriminate.
Qed.

Lemma NoDup_keys_applyEntries column entries :
  forall result,
    NoDup (keys result) ->
    NoDup (keys (applyEntries Date_parse column entries result)).
Proof.
  unfold applyEntries.
  induction entries as [|e rest IH]; simpl; intros result Hnd; [assumption|].
  apply IH. unfold applyEntry.
  destruct (entryCell Date_parse e) as [[k' v]|]; [|assumption].
  now apply NoDup_keys_setCell.
Qed.

Lemma lastValueFrom_absent entries k :
  forall acc,
    (forall e v, In e entries -> entryCell Date_parse e <> Some (k, v)) ->
    lastValueFrom Date_parse acc entries k = acc.
Proof.
  unfold lastValueFrom.
  induction entries as [|e rest IH]; simpl; intros acc Habs; [reflexivity|].
  rewrite IH by (intros; apply Habs; auto).
  destruct (entryCell Date_parse e) as [[k' v]|] eqn:Ee; [|reflexivity].
  destruct (String.eqb k' k) eqn:Ek; [|reflexivity].
  apply String.eqb_eq in Ek. subst k'.
  exfalso. apply (Habs e v); auto.
Qed.

End Entries.

(** *** Column names *)

Lemma Z_to_string_inj n m : Z_to_string n = Z_to_string m -> n = m.
Proof.
  unfold Z_to_string. intros H.
  apply DecimalZ.to_int_inj.
  assert (Hopt : Some (Z.to_int n) = Some (Z.to_int m)).
  { rewrite <- !NilEmpty.isi. now rewrite H. }
  now inversion Hopt.
Qed.

Lemma seriesNumber_inj i j : seriesNumber i = seriesNumber j -> i = j.
Proof.
  unfold seriesNumber. intros H. simpl in H.
  inversion H as [H']. apply Z_to_string_inj in H'. lia.
Qed.

Section Series.

Variable Date_parse : string -> option Z.

Lemma keptFrom_index i series s :
  In s (keptFrom i series) -> (i <= fst (fst s))%nat.
Proof.
  revert i. induction series as [|x rest IH]; simpl; intros i Hin; [tauto|].
  assert (Hrest : In s (keptFrom (S i) rest) -> (i <= fst (fst s))%nat)
    by (intros H; apply IH in H; lia).
  destruct (truthy x); [|auto].
  destruct (getOpt x "values"); auto.
  destruct Hin as [<-|Hin]; simpl; auto.
Qed.

Lemma NoDup_keptColumn i series :
  NoDup (map keptColumn (keptFrom i series)).
Proof.
  revert i. induction series as [|x rest IH]; simpl; intros i; [constructor|].
  destruct (truthy x); [|apply IH].
  destruct (getOpt x "values"); try apply IH.
  simpl. constructor; [|apply IH].
  rewrite in_map_iff. intros (s & Hs & Hin).
  apply keptFrom_index in Hin. unfold keptColumn in Hs. simpl in Hs.
  apply seriesNumber_inj in Hs. lia.
Qed.

Lemma cellAt_applySeries_other kept :
  forall result k c,
    ~ In c (map keptColumn kept) ->
    cellAt (applySeries Date_parse kept result) k c = cellAt result k c.
Proof.
  unfold applySeries.
  induction kept as [|s rest IH]; simpl; intros result k c Hc; [reflexivity|].
  rewrite IH by tauto. rewrite cellAt_applyEntries.
  destruct (String.eqb (keptColumn s) c) eqn:E; [|reflexivity].
  apply String.eqb_eq in E. tauto.
Qed.

Lemma cellAt_applySeries kept :
  forall result k s,
    NoDup (map keptColumn kept) ->
    In s kept ->
    cellAt (applySeries Date_parse kept result) k (keptColumn s) =
    lastValueFrom Date_parse (cellAt result k (keptColumn s)) (snd s) k.
Proof.
  unfold applySeries.
  induction kept as [|x rest IH]; simpl; intros result k s Hnd Hin; [tauto|].
  inversion Hnd as [|? ? Hx Hrest]; subst.
  destruct Hin as [<-|Hin].
  - fold (applySeries Date_parse rest
            (applyEntries Date_parse (keptColumn x) (snd x) result)).
    rewrite cellAt_applySeries_other by assumption.
    rewrite cellAt_applyEntries. now rewrite String.eqb_refl.
  - rewrite IH by assumption. rewrite cellAt_applyEntries.
    destruct (String.eqb (keptColumn x) (keptColumn s)) eqn:E; [|reflexivity].
    apply String.eqb_eq in E. exfalso. apply Hx. rewrite E.
    now apply in_map.
Qed.

Lemma in_keys_applySeries kept :
  forall result k,
    In k (keys (applySeries Date_parse kept result)) <->
    In k (keys result) \/ isRowKey Date_parse kept k.
Proof.
  unfold applySeries, isRowKey.
  induction kept as [|x rest IH]; simpl; intros result k.
  - split; [auto | intros [H|(s & e & v & [] & _)]; exact H].
  - rewrite IH, in_keys_applyEntries. split.
    + intros [[H|(e & v & Hin & He)]|(s & e & v & Hs & Hin & He)]; eauto 10.
    + intros [H|(s & e & v & [<-|Hs] & Hin & He)]; eauto 10.
Qed.

Lemma NoDup_keys_applySeries kept :
  forall result,
    NoDup (keys result) ->
    NoDup (keys (applySeries Date_parse kept result)).
Proof.
  unfold applySeries.
  induction kept as [|x rest IH]; simpl; intros result Hnd; [assumption|].
  apply IH. now apply NoDup_keys_applyEntries.
Qed.

End Series.

(** *** Sorting the row keys *)

Lemma in_insertSorted x s l : In x (insertSorted s l) <-> x = s \/ In x l.
Proof.
  induction l as [|y rest IH]; simpl.
  - intuition.
  - destruct (String.leb s y); simpl; [intuition | rewrite IH; intuition].
Qed.

Lemma in_sort x l : In x (sort l) <-> In x l.
Proof.
  unfold sort. induction l as [|y rest IH]; simpl; [tauto|].
  rewrite in_insertSorted, IH. intuition.
Qed.

Lemma ltb_of_leb a b : String.leb a b = true -> a <> b -> ascending a b.
Proof.
  unfold ascending, String.leb, String.ltb. intros Hle Hne.
  destruct (String.compare a b) eqn:E; try reflexivity; try discriminate.
  apply String.compare_eq_iff in E. contradiction.
Qed.

Lemma ascending_trans a b c : ascending a b -> ascending b c -> ascending a c.
Proof.
  unfold ascending, String.ltb. intros Hab Hbc.
  destruct (String.compare a b) eqn:Eab; try discriminate.
  destruct (String.compare b c) eqn:Ebc; try discriminate.
  apply String_as_OT.cmp_lt in Eab, Ebc.
  pose proof (String_as_OT.lt_trans _ _ _ Eab Ebc) as Hac.
  apply String_as_OT.cmp_lt in Hac. unfold String_as_OT.cmp in Hac.
  now rewrite Hac.
Qed.

Lemma not_leb_ascending a b : String.leb a b = false -> ascending b a.
Proof.
  unfold ascending, String.leb, String.ltb. rewrite (String.compare_antisym a b).
  destruct (String.compare b a); simpl; congruence.
Qed.

Lemma insertSorted_sorted s l :
  ~ In s l ->
  StronglySorted ascending l -> StronglySorted ascending (insertSorted s l).
Proof.
  intros Hnin Hsorted.
  induction Hsorted as [|y rest Hrest IH Hall]; simpl.
  - repeat constructor.
  - simpl in Hnin.
    destruct (String.leb s y) eqn:E.
    + assert (Hsy : ascending s y) by (apply ltb_of_leb; auto).
      constructor; [now constructor|].
      constructor; [assumption|].
      rewrite Forall_forall in *. intros z Hz.
      eapply ascending_trans; eauto.
    + constructor; [apply IH; tauto|].
      rewrite Forall_forall in *. intros z Hz.
      apply in_insertSorted in Hz. destruct Hz as [->|Hz]; auto.
      now apply not_leb_ascending.
Qed.

Lemma sort_sorted l : NoDup l -> StronglySorted ascending (sort l).
Proof.
  unfold sort. induction 1 as [|x l Hx Hnd IH]; simpl; [constructor|].
  apply insertSorted_sorted; [|assumption].
  fold (sort l). now rewrite in_sort.
Qed.

(** *** The serializer against its declarative description *)

Lemma elemStr_rowCell row c :
  elemStr (rowCell (VObj row) c) = cellText (lookup row c).
Proof.
  unfold rowCell, getOpt, nullish_else, cellText, elemStr. simpl.
  destruct (lookup row c) as [v|]; [|reflexivity].
  destruct (nullish v) eqn:E; simpl; rewrite ?E; reflexivity.
Qed.

Lemma rowLine_spec parse kept k :
  NoDup (map keptColumn kept) ->
  In k (keys (applySeries parse kept [])) ->
  rowLine (applySeries parse kept []) (map keptColumn kept) k =
  specRow parse kept k.
Proof.
  intros Hnd Hk. unfold rowLine, specRow, join.
  destruct (lookup (applySeries parse kept []) k) as [row|] eqn:Hrow.
  2: { apply lookup_None in Hrow. contradiction. }
  do 3 f_equal. rewrite !map_map. f_equal. apply map_ext_in. intros s Hs.
  rewrite elemStr_rowCell.
  pose proof (cellAt_applySeries parse kept [] k s Hnd Hs) as Hcell.
  unfold cellAt in Hcell at 1. rewrite Hrow in Hcell.
  rewrite Hcell. reflexivity.
Qed.

Lemma exportTimeSeriesData_spec parse props elems title csv :
  lookup props "series" = Some (VArr elems) ->
  elems <> [] ->
  exportTimeSeriesData parse (VObj props) title = Normal csv ->
  exists dateTimes : list string,
    StronglySorted ascending dateTimes /\
    (forall k, In k dateTimes <-> isRowKey parse (keptFrom 0 elems) k) /\
    csv = specPreamble (keptFrom 0 elems) ++
          lines (map (specRow parse (keptFrom 0 elems)) dateTimes).
Proof.
  intros Hs Hne H. unfold exportTimeSeriesData, get, ownProp in H.
  rewrite Hs in H.
  cbn [bind truthy isArray negb orb arrayLength indexLoop arrayLike] in H.
  destruct (Z.of_nat (List.length elems) =? 0) eqn:E.
  { apply Z.eqb_eq in E. destruct elems; [congruence | simpl in E; lia]. }
  apply bind_Normal in H. destruct H as ([info result] & Hacc & H).
  apply processSeries_spec in Hacc. simpl in Hacc. destruct Hacc as [-> ->].
  set (kept := keptFrom 0 elems) in *.
  assert (Hnd : NoDup (map keptColumn kept)) by apply NoDup_keptColumn.
  exists (sort (keys (applySeries parse kept []))).
  split; [|split].
  - apply sort_sorted. apply NoDup_keys_applySeries. constructor.
  - intros k. rewrite in_sort, in_keys_applySeries. simpl. tauto.
  - inversion H as [Hcsv]. clear H Hcsv. simpl fst. simpl snd.
    unfold specPreamble.
    rewrite !map_map.
    replace (map (fun x => legendLine (keptMetadata x)) kept)
      with (map specLegendLine kept) by reflexivity.
    replace (map (fun x => columnName (keptMetadata x)) kept)
      with (map keptColumn kept) by reflexivity.
    rewrite <- (map_map keptMetadata columnName).
    replace (map columnName (map keptMetadata kept))
      with (map keptColumn kept) by (now rewrite map_map).
    rewrite (map_ext_in
               (rowLine (applySeries parse kept []) (map keptColumn kept))
               (specRow parse kept)).
    + rewrite !append_assoc. reflexivity.
    + intros k Hk. rewrite in_sort in Hk. now apply rowLine_spec.
Qed.

(** *** Skipped entries, and totality up to invalid dates *)

Lemma entryCell_skips parse e :
  isArray e = false \/
  (exists l, e = VArr l /\ (List.length l < 2)%nat) \/
  (exists timestamp v rest,
      e = VArr (timestamp :: v :: rest) /\
      typeof timestamp <> TNumber /\ typeof timestamp <> TString) ->
  entryCell parse e = None /\
  forall column result, processEntry parse column result e = Normal result.
Proof.
  intros [H|[(l & -> & Hl)|(timestamp & v & rest & -> & Hn & Hs)]].
  - destruct e; try discriminate H; split; reflexivity.
  - destruct l as [|a [|b l]]; simpl in Hl; try lia; split; reflexivity.
  - unfold entryCell, processEntry. simpl.
    replace (Z.pos (Pos.succ (Pos.of_succ_nat (List.length rest))) <? 2)
      with false by (symmetry; apply Z.ltb_ge; lia).
    unfold elemAt. simpl. unfold entryDateTime.
    destruct timestamp; simpl in *; try congruence; split; reflexivity.
Qed.





(** ** The claims on the time-series serializer *)




(** C2, as stated, fails: two series that both resolve to the name "cpu"
    should share one column headed [cpu]; the serializer heads the columns
    by series number, keeps both, and writes the names in comment lines.
    The chain itself is one of [||], not of [??]: an empty [formattedName]
    gives way to [name]. *)
Lemma header_from_names_counterexample :
  claimedName 0 (VObj [("formattedName", VStr ""); ("name", VStr "cpu")]) =
    "" /\
  getSeriesLegendName
    (VObj [("formattedName", VStr ""); ("name", VStr "cpu")]) 0 =
    Normal (mkSeriesMetadata (VStr "cpu") "Series_1") /\
  claimedHeader [cpuSeries 1; cpuSeries 2] = "DateTime,cpu" /\
  exportTimeSeriesData noParse sameNamePayload "CPU" =
    Normal ("# Legend Information:" ++ nl ++
            "# Series_1: cpu" ++ nl ++
            "# Series_2: cpu" ++ nl ++
            "#" ++ nl ++
            "DateTime,Series_1,Series_2" ++ nl ++
            "1970-01-01T00:00:00.000Z,1,2" ++ nl) /\
  (forall csv,
      exportTimeSeriesData noParse sameNamePayload "CPU" = Normal csv ->
      headerRow csv = Some "DateTime,Series_1,Series_2" /\
      headerRow csv <> Some (claimedHeader [cpuSeries 1; cpuSeries 2])).
Proof.
  do 4 (split; [reflexivity|]).
  intros csv H. inversion H. split; [reflexivity | discriminate].
Qed.

(** C2, amended: the serializer resolves the legend name of each series it
    keeps (a truthy series whose [values] is an array) as the first truthy
    one of formattedName, legendName, displayName, legend, name, else
    "Series n" with n the index plus one, and writes it in the comment line
    [# Series_n: name]; the column of the series is named [Series_n], so no
    two series share a column; the header row is [DateTime,Series_n,...]
    over the kept series in their order. *)
Theorem header_row_names_columns_by_index :
  forall (Date_parse : string -> option Z) (props : list (string * value))
         (elems : list value) (title csv : string),
    lookup props "series" = Some (VArr elems) ->
    elems <> [] ->
    exportTimeSeriesData Date_parse (VObj props) title = Normal csv ->
    NoDup (map keptColumn (keptFrom 0 elems)) /\
    exists rows : string,
      csv = "# Legend Information:" ++ nl ++
            lines (map specLegendLine (keptFrom 0 elems)) ++
            "#" ++ nl ++
            "DateTime," ++ joinStr "," (map keptColumn (keptFrom 0 elems)) ++
            nl ++ rows.
Proof.
  intros Date_parse props elems title csv Hs Hne H.
  split; [apply NoDup_keptColumn|].
  destruct (exportTimeSeriesData_spec _ _ _ _ _ Hs Hne H)
    as (dateTimes & _ & _ & ->).
  exists (lines (map (specRow Date_parse (keptFrom 0 elems)) dateTimes)).
  unfold specPreamble. rewrite !append_assoc. reflexivity.
Qed.

Lemma header_row_names_columns_by_index_witness :
  exists rows : string,
    exportTimeSeriesData noParse alignmentPayload "Load" =
    Normal ("# Legend Information:" ++ nl ++
            "# Series_1: A" ++ nl ++
            "# Series_2: B" ++ nl ++
            "#" ++ nl ++
            "DateTime,Series_1,Series_2" ++ nl ++ rows).
Proof.
  destruct (exportTimeSeriesData noParse alignmentPayload "Load")
    as [csv|e] eqn:H; [|discriminate H].
  destruct (header_row_names_columns_by_index
              noParse [("series", VArr [seriesA; seriesB])]
              [seriesA; seriesB] "Load" csv eq_refl
              ltac:(discriminate) H) as (_ & rows & ->).
  exists rows. reflexivity.
Defined.

(** ** ISO-8601 strings and chronological order *)

Lemma DayFromYear_step y :
  365 <= DayFromYear (y + 1) - DayFromYear y <= 366.
Proof.
  unfold DayFromYear. Z.div_mod_to_equations; lia.
Qed.

Lemma DayFromYear_lt y y' : y < y' -> DayFromYear y < DayFromYear y'.
Proof.
  unfold DayFromYear. intros. Z.div_mod_to_equations; lia.
Qed.

(** [YearFromDay] is the year the ECMAScript specification defines: the
    largest one that starts on or before the day. *)
Lemma YearFromDay_spec d :
  DayFromYear (YearFromDay d) <= d < DayFromYear (YearFromDay d + 1).
Proof.
  unfold YearFromDay.
  set (y0 := 1970 + 400 * d / 146097).
  assert (H : DayFromYear (y0 - 1) <= d < DayFromYear (y0 + 2)).
  { unfold DayFromYear, y0. Z.div_mod_to_equations; lia. }
  destruct (Z.leb_spec (DayFromYear (y0 + 1)) d).
  - replace (y0 + 1 + 1) with (y0 + 2) by lia. lia.
  - destruct (Z.leb_spec (DayFromYear y0) d).
    + lia.
    + replace (y0 - 1 + 1) with y0 by lia. lia.
Qed.

Lemma YearFromDay_mono d1 d2 :
  d1 <= d2 -> YearFromDay d1 <= YearFromDay d2.
Proof.
  intros Hd.
  pose proof (YearFromDay_spec d1) as H1.
  pose proof (YearFromDay_spec d2) as H2.
  destruct (Z.le_gt_cases (YearFromDay d1) (YearFromDay d2)) as [H|H];
    [assumption|].
  assert (Hy : YearFromDay d2 + 1 = YearFromDay d1 \/
               YearFromDay d2 + 1 < YearFromDay d1) by lia.
  destruct Hy as [Hy|Hy].
  - rewrite Hy in H2. lia.
  - apply DayFromYear_lt in Hy. lia.
Qed.

Lemma InLeapYear_range y : InLeapYear y = 0 \/ InLeapYear y = 1.
Proof. unfold InLeapYear. destruct (_ =? 366); auto. Qed.

Lemma dayInYear_range d :
  0 <= d - DayFromYear (YearFromDay d) < 365 + InLeapYear (YearFromDay d).
Proof.
  pose proof (YearFromDay_spec d) as H.
  pose proof (DayFromYear_step (YearFromDay d)) as Hstep.
  unfold InLeapYear.
  destruct (Z.eqb_spec (DayFromYear (YearFromDay d + 1) -
                        DayFromYear (YearFromDay d)) 366); lia.
Qed.

Ltac split_ltb :=
  repeat match goal with
         | |- context [?a <? ?b] => destruct (Z.ltb_spec a b)
         end.

Lemma MonthDate_range d leap :
  (leap = 0 \/ leap = 1) -> 0 <= d < 365 + leap ->
  0 <= fst (MonthDate d leap) <= 11 /\ 1 <= snd (MonthDate d leap) <= 31.
Proof.
  intros Hl Hd. unfold MonthDate. split_ltb; simpl; lia.
Qed.

Lemma MonthDate_mono d1 d2 leap :
  (leap = 0 \/ leap = 1) -> 0 <= d1 -> d1 < d2 ->
  fst (MonthDate d1 leap) < fst (MonthDate d2 leap) \/
  (fst (MonthDate d1 leap) = fst (MonthDate d2 leap) /\
   snd (MonthDate d1 leap) < snd (MonthDate d2 leap)).
Proof.
  intros Hl H1 H12. unfold MonthDate. split_ltb; simpl; lia.
Qed.

Lemma fieldsOf_ranges t :
  1 <= f_month (fieldsOf t) <= 12 /\ 1 <= f_date (fieldsOf t) <= 31 /\
  0 <= f_hour (fieldsOf t) <= 23 /\ 0 <= f_min (fieldsOf t) <= 59 /\
  0 <= f_sec (fieldsOf t) <= 59 /\ 0 <= f_ms (fieldsOf t) <= 999.
Proof.
  unfold fieldsOf. simpl.
  pose proof (MonthDate_range _ _ (InLeapYear_range _)
                (dayInYear_range (t / msPerDay))) as [Hm Hd].
  repeat split; try lia; unfold msPerDay; Z.div_mod_to_equations; lia.
Qed.

(** A later time value has calendar fields that compare greater. *)
Lemma compareFields_lt t1 t2 :
  t1 < t2 -> compareFields (fieldsOf t1) (fieldsOf t2) = Lt.
Proof.
  intros Ht. unfold compareFields, fieldsOf. simpl.
  set (day1 := t1 / msPerDay). set (day2 := t2 / msPerDay).
  assert (Hday : day1 <= day2)
    by (unfold day1, day2, msPerDay; Z.div_mod_to_equations; lia).
  pose proof (YearFromDay_mono _ _ Hday) as Hy.
  destruct (Z.compare_spec (YearFromDay day1) (YearFromDay day2))
    as [Hyy|Hyy|Hyy]; simpl; [|reflexivity|lia].
  rewrite <- Hyy.
  assert (Hcases : day1 < day2 \/ day1 = day2) by lia.
  destruct Hcases as [Hlt|Heq].
  - pose proof (dayInYear_range day1) as Hr1.
    destruct (MonthDate_mono (day1 - DayFromYear (YearFromDay day1))
                             (day2 - DayFromYear (YearFromDay day1))
                             (InLeapYear (YearFromDay day1))
                             (InLeapYear_range _)) as [Hm|[Hm Hd]];
      try lia.
    + replace (_ + 1 ?= _ + 1) with Lt by (symmetry; apply Z.compare_lt_iff; lia).
      reflexivity.
    + rewrite Hm, Z.compare_refl. simpl.
      replace (_ ?= _) with Lt by (symmetry; apply Z.compare_lt_iff; lia).
      reflexivity.
  - rewrite <- Heq, !Z.compare_refl. simpl.
    assert (Hmod : t1 mod msPerDay < t2 mod msPerDay)
      by (unfold day1, day2, msPerDay in *; Z.div_mod_to_equations; lia).
    assert (H0 : 0 <= t1 mod msPerDay)
      by (unfold msPerDay; Z.div_mod_to_equations; lia).
    revert Hmod H0.
    generalize (t1 mod msPerDay) (t2 mod msPerDay). intros a b Hab Ha.
    destruct (Z.compare_spec (a / 3600000) (b / 3600000)); simpl;
      [|reflexivity|exfalso; Z.div_mod_to_equations; lia].
    destruct (Z.compare_spec ((a / 60000) mod 60) ((b / 60000) mod 60));
      simpl; [|reflexivity|exfalso; Z.div_mod_to_equations; lia].
    destruct (Z.compare_spec ((a / 1000) mod 60) ((b / 1000) mod 60));
      simpl; [|reflexivity|exfalso; Z.div_mod_to_equations; lia].
    apply Z.compare_lt_iff. Z.div_mod_to_equations. lia.
Qed.

Lemma compare_digit a b :
  0 <= a <= 9 -> 0 <= b <= 9 ->
  Ascii.compare (digit a) (digit b) = (a ?= b).
Proof.
  intros Ha Hb.
  assert (Ha' : a = 0 \/ a = 1 \/ a = 2 \/ a = 3 \/ a = 4 \/ a = 5 \/
                a = 6 \/ a = 7 \/ a = 8 \/ a = 9) by lia.
  assert (Hb' : b = 0 \/ b = 1 \/ b = 2 \/ b = 3 \/ b = 4 \/ b = 5 \/
                b = 6 \/ b = 7 \/ b = 8 \/ b = 9) by lia.
  repeat (destruct Ha' as [->|Ha']); try subst a;
    repeat (destruct Hb' as [->|Hb']); try subst b; reflexivity.
Qed.

Lemma compare_cons c1 c2 s1 s2 :
  String.compare (String c1 s1) (String c2 s2) =
  lexi (Ascii.compare c1 c2) (String.compare s1 s2).
Proof.
  cbn [String.compare]. destruct (Ascii.compare c1 c2); reflexivity.
Qed.

Lemma compare_cons_same c s1 s2 :
  String.compare (String c s1) (String c s2) = String.compare s1 s2.
Proof.
  rewrite compare_cons. unfold Ascii.compare. now rewrite N.compare_refl.
Qed.

Lemma lexi_digits a b c :
  0 <= a -> 0 <= b ->
  lexi (a / 10 ?= b / 10) (lexi (a mod 10 ?= b mod 10) c) = lexi (a ?= b) c.
Proof.
  intros Ha Hb.
  destruct (Z.compare_spec (a / 10) (b / 10)); simpl;
    destruct (Z.compare_spec (a mod 10) (b mod 10)); simpl;
    destruct (Z.compare_spec a b); simpl; try reflexivity;
    exfalso; Z.div_mod_to_equations; lia.
Qed.

(** Numbers printed on the same number of digits compare as strings the way
    they compare as numbers. *)
Lemma compare_padDigits w :
  forall a b s1 s2,
    0 <= a < 10 ^ Z.of_nat w -> 0 <= b < 10 ^ Z.of_nat w ->
    String.compare (padDigits w a ++ s1) (padDigits w b ++ s2) =
    lexi (a ?= b) (String.compare s1 s2).
Proof.
  induction w as [|w IH]; intros a b s1 s2 Ha Hb.
  - change (10 ^ Z.of_nat 0) with 1 in *.
    assert (a = 0) by lia. assert (b = 0) by lia. subst.
    reflexivity.
  - rewrite Nat2Z.inj_succ, Z.pow_succ_r in Ha, Hb by lia.
    cbn [padDigits]. rewrite !append_assoc.
    rewrite IH by (Z.div_mod_to_equations; lia).
    cbn [append]. rewrite compare_cons.
    rewrite compare_digit by (Z.div_mod_to_equations; lia).
    apply lexi_digits; lia.
Qed.

Lemma compare_pad2 a b s1 s2 :
  0 <= a <= 99 -> 0 <= b <= 99 ->
  String.compare (padDigits 2 a ++ s1) (padDigits 2 b ++ s2) =
  lexi (a ?= b) (String.compare s1 s2).
Proof.
  intros. apply compare_padDigits; change (10 ^ Z.of_nat 2) with 100; lia.
Qed.

Lemma compare_pad3 a b s1 s2 :
  0 <= a <= 999 -> 0 <= b <= 999 ->
  String.compare (padDigits 3 a ++ s1) (padDigits 3 b ++ s2) =
  lexi (a ?= b) (String.compare s1 s2).
Proof.
  intros. apply compare_padDigits; change (10 ^ Z.of_nat 3) with 1000; lia.
Qed.

Lemma compare_pad4 a b s1 s2 :
  0 <= a <= 9999 -> 0 <= b <= 9999 ->
  String.compare (padDigits 4 a ++ s1) (padDigits 4 b ++ s2) =
  lexi (a ?= b) (String.compare s1 s2).
Proof.
  intros. apply compare_padDigits; change (10 ^ Z.of_nat 4) with 10000; lia.
Qed.

Lemma compare_isoOfFields f1 f2 :
  0 <= f_year f1 <= 9999 -> 0 <= f_year f2 <= 9999 ->
  0 <= f_month f1 <= 99 -> 0 <= f_month f2 <= 99 ->
  0 <= f_date f1 <= 99 -> 0 <= f_date f2 <= 99 ->
  0 <= f_hour f1 <= 99 -> 0 <= f_hour f2 <= 99 ->
  0 <= f_min f1 <= 99 -> 0 <= f_min f2 <= 99 ->
  0 <= f_sec f1 <= 99 -> 0 <= f_sec f2 <= 99 ->
  0 <= f_ms f1 <= 999 -> 0 <= f_ms f2 <= 999 ->
  String.compare (isoOfFields f1) (isoOfFields f2) = compareFields f1 f2.
Proof.
  intros. unfold isoOfFields, compareFields, yearString.
  replace ((0 <=? f_year f1) && (f_year f1 <=? 9999)) with true
    by (symmetry; apply andb_true_iff; split; apply Z.leb_le; lia).
  replace ((0 <=? f_year f2) && (f_year f2 <=? 9999)) with true
    by (symmetry; apply andb_true_iff; split; apply Z.leb_le; lia).
  rewrite compare_pad4 by assumption. f_equal.
  cbn [append]. rewrite compare_cons_same.
  rewrite compare_pad2 by assumption. f_equal.
  cbn [append]. rewrite compare_cons_same.
  rewrite compare_pad2 by assumption. f_equal.
  cbn [append]. rewrite compare_cons_same.
  rewrite compare_pad2 by assumption. f_equal.
  cbn [append]. rewrite compare_cons_same.
  rewrite compare_pad2 by assumption. f_equal.
  cbn [append]. rewrite compare_cons_same.
  rewrite compare_pad2 by assumption. f_equal.
  cbn [append]. rewrite compare_cons_same.
  rewrite compare_pad3 by assumption.
  destruct (f_ms f1 ?= f_ms f2); reflexivity.
Qed.

(** Within the years 0000 to 9999 the ISO-8601 strings of two time values
    are in lexicographic order exactly when the time values are in
    chronological order. *)
Lemma toISOString_chronological t1 t2 k1 k2 :
  fourDigitYear t1 -> fourDigitYear t2 ->
  toISOString t1 = Normal k1 -> toISOString t2 = Normal k2 ->
  (ascending k1 k2 <-> t1 < t2).
Proof.
  unfold fourDigitYear, toISOString, ascending, String.ltb.
  intros Hy1 Hy2 H1 H2.
  destruct (validTime t1); [|discriminate]. inversion H1 as [Hk1].
  destruct (validTime t2); [|discriminate]. inversion H2 as [Hk2].
  clear H1 H2 Hk1 Hk2.
  pose proof (fieldsOf_ranges t1) as R1.
  pose proof (fieldsOf_ranges t2) as R2.
  rewrite compare_isoOfFields by lia.
  destruct (Z.lt_total t1 t2) as [Hlt|[Heq|Hgt]].
  - rewrite (compareFields_lt _ _ Hlt). tauto.
  - subst t2. split; [|lia].
    unfold compareFields. rewrite !Z.compare_refl. simpl. discriminate.
  - split; [|lia].
    pose proof (compareFields_lt _ _ Hgt) as Hrev.
    rewrite <- compare_isoOfFields in Hrev by lia.
    rewrite <- compare_isoOfFields by lia.
    rewrite String.compare_antisym, Hrev. simpl. discriminate.
Qed.

(** The time values whose year prints on four digits. *)
Lemma fourDigitYear_range t :
  fourDigitYear t <-> -62167219200000 <= t <= 253402300799999.
Proof.
  unfold fourDigitYear, fieldsOf. simpl.
  pose proof (YearFromDay_spec (t / msPerDay)) as Hspec.
  set (y := YearFromDay (t / msPerDay)) in *.
  assert (H0 : DayFromYear 0 = -719528) by reflexivity.
  assert (H1 : DayFromYear 10000 = 2932897) by reflexivity.
  split.
  - intros [Hlo Hhi].
    assert (Hd0 : DayFromYear 0 <= DayFromYear y).
    { destruct (Z.eq_dec y 0) as [->|]; [lia|].
      assert (0 < y) by lia. apply DayFromYear_lt in H. lia. }
    assert (Hd1 : DayFromYear (y + 1) <= DayFromYear 10000).
    { destruct (Z.eq_dec (y + 1) 10000) as [->|]; [lia|].
      assert (y + 1 < 10000) by lia. apply DayFromYear_lt in H. lia. }
    unfold msPerDay in *. Z.div_mod_to_equations. lia.
  - intros Ht.
    assert (Hday : -719528 <= t / msPerDay < 2932897)
      by (unfold msPerDay; Z.div_mod_to_equations; lia).
    split.
    + destruct (Z.le_gt_cases 0 y) as [|Hneg]; [assumption|].
      assert (Hy : y + 1 = 0 \/ y + 1 < 0) by lia.
      destruct Hy as [Hy|Hy]; [rewrite Hy in Hspec; lia|].
      apply DayFromYear_lt in Hy. lia.
    + destruct (Z.le_gt_cases y 9999) as [|Hbig]; [assumption|].
      assert (Hy : y = 10000 \/ 10000 < y) by lia.
      destruct Hy as [Hy|Hy]; [rewrite Hy in Hspec; lia|].
      apply DayFromYear_lt in Hy. lia.
Qed.

(** C7, as stated, fails on the gloss that lexicographic order is
    chronological order: a sample in the year 10000 prints with a sign and
    six digits, and its row comes before the row of the epoch. *)
Lemma rows_not_chronological_counterexample :
  exportTimeSeriesData noParse farFuturePayload "Load" =
    Normal ("# Legend Information:" ++ nl ++
            "# Series_1: A" ++ nl ++
            "#" ++ nl ++
            "DateTime,Series_1" ++ nl ++
            "+010000-01-01T00:00:00.000Z,1" ++ nl ++
            "1970-01-01T00:00:00.000Z,2" ++ nl) /\
  toISOString 253402300800000 = Normal "+010000-01-01T00:00:00.000Z" /\
  toISOString (0 * 1000) = Normal "1970-01-01T00:00:00.000Z" /\
  0 * 1000 < 253402300800000 /\
  ascending "+010000-01-01T00:00:00.000Z" "1970-01-01T00:00:00.000Z".
Proof.
  repeat split.
Qed.

(** C7, amended: the data rows are in strictly ascending lexicographic
    order of their ISO-8601 timestamps, one row for each timestamp that
    some entry of some kept series carries; within the years 0000 to 9999
    that order is the chronological one.  The cell of a series in a row is
    the value of the last entry of the series at that timestamp, and it is
    empty (not zero) when the series has no entry there.  On the example of
    the specification, A = [[0,1],[60,2]] and B = [[0,10]] in seconds, the
    rows are [1970-01-01T00:00:00.000Z,1,10] and
    [1970-01-01T00:01:00.000Z,2,] with an empty last cell. *)
Theorem rows_ascending_missing_cells_empty :
  (forall (Date_parse : string -> option Z) (props : list (string * value))
          (elems : list value) (title csv : string),
      lookup props "series" = Some (VArr elems) ->
      elems <> [] ->
      exportTimeSeriesData Date_parse (VObj props) title = Normal csv ->
      exists dateTimes : list string,
        csv = specPreamble (keptFrom 0 elems) ++
              lines (map (specRow Date_parse (keptFrom 0 elems)) dateTimes) /\
        StronglySorted ascending dateTimes /\
        (forall k, In k dateTimes <->
                   isRowKey Date_parse (keptFrom 0 elems) k) /\
        (forall (s : Kept) (k : string),
            In s (keptFrom 0 elems) ->
            (forall e v, In e (snd s) ->
                         entryCell Date_parse e <> Some (k, v)) ->
            cellText (lastValue Date_parse (snd s) k) = "")) /\
  (forall (t1 t2 : Z) (k1 k2 : string),
      -62167219200000 <= t1 <= 253402300799999 ->
      -62167219200000 <= t2 <= 253402300799999 ->
      toISOString t1 = Normal k1 -> toISOString t2 = Normal k2 ->
      (ascending k1 k2 <-> t1 < t2)) /\
  exportTimeSeriesData noParse alignmentPayload "Load" =
    Normal ("# Legend Information:" ++ nl ++
            "# Series_1: A" ++ nl ++
            "# Series_2: B" ++ nl ++
            "#" ++ nl ++
            "DateTime,Series_1,Series_2" ++ nl ++
            "1970-01-01T00:00:00.000Z,1,10" ++ nl ++
            "1970-01-01T00:01:00.000Z,2," ++ nl).
Proof.
  split; [|split; [|reflexivity]].
  - intros Date_parse props elems title csv Hs Hne H.
    destruct (exportTimeSeriesData_spec _ _ _ _ _ Hs Hne H)
      as (dateTimes & Hsorted & Hkeys & ->).
    exists dateTimes. repeat split; try assumption; try apply Hkeys.
    intros s k _ Habs. unfold lastValue.
    now rewrite lastValueFrom_absent.
  - intros t1 t2 k1 k2 H1 H2.
    apply toISOString_chronological; now apply fourDigitYear_range.
Qed.

Lemma rows_ascending_missing_cells_empty_witness :
  ascending "1970-01-01T00:00:00.000Z" "1970-01-01T00:01:00.000Z" /\
  exists dateTimes : list string,
    StronglySorted ascending dateTimes /\
    forall k, In k dateTimes <->
              isRowKey noParse (keptFrom 0 [seriesA; seriesB]) k.
Proof.
  destruct rows_ascending_missing_cells_empty as (Hrows & Hchrono & Hex).
  split.
  - apply (Hchrono 0 60000); try lia; reflexivity.
  - destruct (Hrows noParse [("series", VArr [seriesA; seriesB])]
                    [seriesA; seriesB] "Load" _ eq_refl
                    ltac:(discriminate) Hex)
      as (dateTimes & _ & Hsorted & Hkeys & _).
    exists dateTimes. split; assumption.
Defined.

(** * Further properties of the panel code *)

(** ** Property reads on arrays and strings *)

(** A key that does not spell an integer is no index of an array. *)
Lemma indexed_non_numeric l k :
  NilEmpty.int_of_string k = None -> forall i, indexed l i k = None.
Proof.
  intros Hk. induction l as [|x rest IH]; simpl; intros i; [reflexivity|].
  destruct (String.eqb (Z_to_string i) k) eqn:E; [|apply IH].
  apply String.eqb_eq in E. subst k. unfold Z_to_string in Hk.
  rewrite NilEmpty.isi in Hk. discriminate Hk.
Qed.

Lemma indexed_nth l :
  forall (base : Z) (i : nat),
    indexed l base (Z_to_string (base + Z.of_nat i)) = nth_error l i.
Proof.
  induction l as [|x rest IH]; simpl; intros base i.
  - now destruct i.
  - destruct i as [|i].
    + rewrite Z.add_0_r, String.eqb_refl. reflexivity.
    + destruct (String.eqb (Z_to_string base)
                           (Z_to_string (base + Z.of_nat (S i)))) eqn:E.
      * apply String.eqb_eq, Z_to_string_inj in E. lia.
      * replace (base + Z.of_nat (S i)) with (base + 1 + Z.of_nat i) by lia.
        apply IH.
Qed.

(** Reading [a[i]] finds the element at position [i], or [undefined] past
    the end. *)
Lemma elemAt_array l i :
  elemAt (VArr l) i =
  Normal (match nth_error l i with Some x => x | None => VUndefined end).
Proof.
  unfold elemAt, get, ownProp, arrayLike.
  destruct (String.eqb (Z_to_string (Z.of_nat i)) "length") eqn:E.
  - apply String.eqb_eq in E.
    assert (H : NilEmpty.int_of_string (Z_to_string (Z.of_nat i)) = None)
      by (rewrite E; reflexivity).
    unfold Z_to_string in H. rewrite NilEmpty.isi in H. discriminate H.
  - now rewrite <- (indexed_nth l 0 i).
Qed.

(** A read of a key that is neither [length] nor an index gives
    [undefined] on everything but an object. *)
Lemma get_named_non_object d k :
  NilEmpty.int_of_string k = None ->
  String.eqb k "length" = false ->
  truthy d = true ->
  (forall props, d <> VObj props) ->
  get d k = Normal VUndefined.
Proof.
  intros Hk Hlen Hd Hobj.
  destruct d as [| |b|n|s|l|props]; try discriminate Hd; try reflexivity.
  - unfold get, ownProp, arrayLike. rewrite Hlen.
    now rewrite indexed_non_numeric.
  - unfold get, ownProp, arrayLike. rewrite Hlen.
    now rewrite indexed_non_numeric.
  - exfalso. now apply (Hobj props).
Qed.

(** ** [detectDataType]: where it throws *)

(** [split_cases], then the tests left in the equations it recorded. *)
Ltac split_deep H :=
  split_cases H;
  repeat match goal with
         | Hc : context [_ && false] |- _ =>
             rewrite andb_false_r in Hc; simpl in Hc; try discriminate Hc
         | Hc : (if ?c then _ else _) = _ |- _ =>
             destruct c; try discriminate Hc
         end.

Lemma detectDataType_non_object d :
  (forall props, d <> VObj props) -> detectDataType d = Normal unknown.
Proof.
  intros Hobj. unfold detectDataType.
  destruct (truthy d) eqn:Hd; [|reflexivity]. cbn [negb].
  rewrite (get_named_non_object d "series" eq_refl eq_refl Hd Hobj).
  rewrite (get_named_non_object d "columns" eq_refl eq_refl Hd Hobj).
  rewrite (get_named_non_object d "rows" eq_refl eq_refl Hd Hobj).
  rewrite (get_named_non_object d "categories" eq_refl eq_refl Hd Hobj).
  reflexivity.
Qed.

(** [detectDataType] throws exactly when [series] is a non-empty array whose
    first element is [null] or [undefined]; the exception is a TypeError.
    On every other value it returns. *)
Theorem detectDataType_throws_iff :
  forall (d : value) (e : exn),
    detectDataType d = Throw e <->
    e = TypeError /\
    exists props first later,
      d = VObj props /\
      lookup props "series" = Some (VArr (first :: later)) /\
      nullish first = true.
Proof.
  intros d e. split.
  - intros H.
    destruct d as [| |b|n|s|l|props];
      try (rewrite detectDataType_non_object in H by discriminate;
           discriminate H).
    unfold detectDataType in H. simpl in H.
    destruct (lookup props "series") as [series|] eqn:Hs; simpl in H.
    + destruct series as [| |b|n|s|elems|ps]; simpl in H;
        rewrite ?andb_false_r in H; simpl in H;
        try (exfalso; split_deep H; fail).
      destruct elems as [|first later]; simpl in H.
      * exfalso. unfold elemAt in H. simpl in H. split_deep H.
      * unfold elemAt in H. simpl in H.
        destruct first as [| |b|n|s|l|ps]; simpl in H;
          try (inversion H; split; [reflexivity|];
               eexists _, _, _;
               (split; [reflexivity|]); (split; [exact Hs | reflexivity]));
          exfalso; split_deep H.
    + exfalso. split_deep H.
  - intros (-> & props & first & later & -> & Hs & Hn).
    unfold detectDataType. simpl. rewrite Hs. simpl.
    unfold elemAt. simpl.
    destruct first; try discriminate Hn; reflexivity.
Qed.

Lemma detectDataType_throws_iff_witness :
  detectDataType (VObj [("series", VArr [VNull])]) = Throw TypeError.
Proof.
  apply (proj2 (detectDataType_throws_iff _ _)).
  split; [reflexivity|].
  exists [("series", VArr [VNull])], VNull, []. repeat split.
Defined.

(** ** The export handler without a shape hint *)

Lemma toCsv_of_detected_shape parse props shape title :
  detectDataType (VObj props) = Normal shape ->
  shape <> unknown ->
  toCsv parse (VObj props) shape title <> Normal "".
Proof.
  intros Hdet Hshape Hcsv.
  apply detectDataType_shape_fields in Hdet.
  destruct shape; simpl in Hcsv; [| | |congruence].
  - apply exportTimeSeriesData_empty in Hcsv.
    destruct Hdet as (first & later & Hs).
    unfold noSeries, missing in Hcsv. rewrite Hs in Hcsv.
    destruct Hcsv as [H|[H|H]]; discriminate H.
  - apply exportTableData_empty in Hcsv. unfold missing in Hcsv.
    destruct Hdet as [H1 H2]. rewrite H1, H2 in Hcsv.
    destruct Hcsv; discriminate.
  - apply exportBarChartData_empty in Hcsv. unfold missing in Hcsv.
    destruct Hdet as [H1 H2]. rewrite H1, H2 in Hcsv.
    destruct Hcsv; discriminate.
Qed.

(** Without a [dataType] hint, a download always carries a non-empty CSV
    body: the file is named after the title and the detected shape, and
    holds the three comment lines followed by what the serializer of the
    detected shape returned, which is not the empty string. *)
Theorem createCsvExportHandler_without_hint :
  forall (Date_parse : string -> option Z) (Date_now : Z)
         (title : string) (queryResults : value) (filename content : string),
    createCsvExportHandler Date_parse Date_now title queryResults None =
      Normal (Download filename content) ->
    exists (shape : DataType) (exported csv : string),
      detectDataType queryResults = Normal shape /\
      shape <> unknown /\
      toISOString Date_now = Normal exported /\
      toCsv Date_parse queryResults shape title = Normal csv /\
      csv <> "" /\
      filename = title ++ "_" ++ DataType_str shape ++ "_data.csv" /\
      content = "# Chart: " ++ title ++ nl ++
                "# Data Type: " ++ DataType_str shape ++ nl ++
                "# Exported: " ++ exported ++ nl ++ csv.
Proof.
  intros Date_parse Date_now title d filename content H.
  unfold createCsvExportHandler in H.
  destruct (truthy d) eqn:Hd; cbn [negb] in H; [|discriminate H].
  apply bind_Normal in H. destruct H as (shape & Hdet & H).
  apply bind_Normal in H. destruct H as (exported & Hnow & H).
  apply bind_Normal in H. destruct H as (body & Hbody & H).
  destruct body as [csv|]; [|discriminate H].
  inversion H as [[Hf Hc]]. clear H.
  assert (Hshape : shape <> unknown).
  { intros ->. discriminate Hbody. }
  assert (Hcsv : toCsv Date_parse d shape title = Normal csv).
  { destruct shape; cbn [toCsv]; try congruence;
      apply bind_Normal in Hbody; destruct Hbody as (x & Hx & Hbody);
      inversion Hbody; subst; exact Hx. }
  exists shape, exported, csv. subst filename content.
  do 4 (split; [assumption|]).
  split; [|split].
  - intros ->.
    destruct d as [| |b|n|s|l|props];
      try (rewrite detectDataType_non_object in Hdet by discriminate;
           inversion Hdet; congruence).
    now apply (toCsv_of_detected_shape Date_parse props shape title).
  - reflexivity.
  - simpl. repeat (rewrite !append_assoc; simpl). reflexivity.
Qed.

Lemma createCsvExportHandler_without_hint_witness :
  exists (shape : DataType) (csv : string),
    detectDataType alignmentPayload = Normal shape /\
    toCsv noParse alignmentPayload shape "Load" = Normal csv /\
    csv <> "".
Proof.
  destruct (createCsvExportHandler noParse 0 "Load" alignmentPayload None)
    as [[|filename content]|e] eqn:H; try discriminate H.
  destruct (createCsvExportHandler_without_hint _ _ _ _ _ _ H)
    as (shape & exported & csv & Hdet & _ & _ & Hcsv & Hne & _).
  exists shape, csv. repeat split; assumption.
Defined.


(** ** The table serializer: when it returns *)

Lemma mapM_Normal_iff {A B : Type} (f : A -> completion B) (l : list A) :
  (exists ys, mapM f l = Normal ys) <->
  (forall x, In x l -> exists y, f x = Normal y).
Proof.
  induction l as [|a rest IH]; simpl.
  - split; [intros _ x [] | eauto].
  - split.
    + intros [ys H]. apply bind_Normal in H. destruct H as (y & Hy & H).
      apply bind_Normal in H. destruct H as (ys' & Hys & _).
      intros x [<-|Hx]; [eauto|]. apply (proj1 IH); eauto.
    + intros Hall.
      destruct (Hall a (or_introl eq_refl)) as [y ->].
      destruct (proj2 IH (fun x Hx => Hall x (or_intror Hx))) as [ys ->].
      simpl. eauto.
Qed.

Lemma mapM_length {A B : Type} (f : A -> completion B) (l : list A) ys :
  mapM f l = Normal ys -> List.length ys = List.length l.
Proof.
  revert ys. induction l as [|a rest IH]; simpl; intros ys H.
  - now inversion H.
  - apply bind_Normal in H. destruct H as (y & _ & H).
    apply bind_Normal in H. destruct H as (ys' & Hys & H).
    inversion H. simpl. f_equal. now apply IH.
Qed.







(** ** Which table cells survive a CSV reader *)





(** ** The bar-chart serializer *)


Lemma mapM_Throw {A B : Type} (f : A -> completion B) l x e :
  In x l -> f x = Throw e ->
  (forall y e', f y = Throw e' -> e' = e) ->
  mapM f l = Throw e.
Proof.
  intros Hin Hx Honly.
  induction l as [|a rest IH]; simpl; [destruct Hin|].
  destruct (f a) as [y|e'] eqn:Ha; simpl.
  - destruct Hin as [->|Hin]; [congruence|].
    now rewrite IH.
  - f_equal. now apply (Honly a).
Qed.






Lemma barSeriesInfoLine_returns p : exists s, barSeriesInfoLine p = Normal s.
Proof.
  destruct p as [i s]. unfold barSeriesInfoLine.
  destruct (truthy s) eqn:Hs; simpl; [|eauto].
  rewrite !(get_truthy s _ Hs). simpl. eauto.
Qed.

Lemma get_only_TypeError v k e : get v k = Throw e -> e = TypeError.
Proof.
  destruct v; simpl; intros H; inversion H; reflexivity.
Qed.

Lemma barCell_only_TypeError i s e : barCell i s = Throw e -> e = TypeError.
Proof.
  unfold barCell. intros H.
  destruct (get s "data") as [d|e1] eqn:Hd; cbn [bind] in H.
  - destruct (elemAt d i) as [v|e2] eqn:Hv; cbn [bind] in H.
    + destruct v; discriminate H.
    + inversion H. subst e2. now apply get_only_TypeError in Hv.
  - inversion H. subst e1. now apply get_only_TypeError in Hd.
Qed.

(** A [null] or [undefined] element of [series] is passed over by the loop
    that writes the series comments, but it makes the row loop throw: with
    at least one category the bar-chart serializer ends in a TypeError. *)
Theorem exportBarChartData_null_series_throws :
  forall (props : list (string * value)) (c : value)
         (cats series : list value) (s : value) (title : string),
    lookup props "categories" = Some (VArr (c :: cats)) ->
    lookup props "series" = Some (VArr series) ->
    In s series -> nullish s = true ->
    exportBarChartData (VObj props) title = Throw TypeError.
Proof.
  intros props c cats series s title Hc Hs Hin Hnull.
  unfold exportBarChartData. simpl. rewrite Hc, Hs. simpl.
  destruct (proj2 (mapM_Normal_iff barSeriesInfoLine (enumerate series)))
    as [info ->].
  { intros p _. apply barSeriesInfoLine_returns. }
  simpl. unfold enumerate. simpl. unfold barRowLine at 1.
  rewrite (mapM_Throw (barCell 0) series s TypeError); try assumption.
  - reflexivity.
  - destruct s; try discriminate Hnull; reflexivity.
  - intros y e'. apply barCell_only_TypeError.
Qed.

Lemma exportBarChartData_null_series_throws_witness :
  exportBarChartData
    (VObj [("categories", VArr [VStr "a"]);
           ("series", VArr [VObj [("name", VStr "s1");
                                  ("data", VArr [VNum 5])]; VNull])])
    "Bars" = Throw TypeError.
Proof.
  apply (exportBarChartData_null_series_throws
           [("categories", VArr [VStr "a"]);
            ("series", VArr [VObj [("name", VStr "s1");
                                   ("data", VArr [VNum 5])]; VNull])]
           (VStr "a") []
           [VObj [("name", VStr "s1"); ("data", VArr [VNum 5])]; VNull]
           VNull "Bars" eq_refl eq_refl).
  - right. left. reflexivity.
  - reflexivity.
Defined.

(** ** PanelHeader.tsx: the payload handed to the export *)

Lemma ownProp_array_named l k :
  NilEmpty.int_of_string k = None -> String.eqb k "length" = false ->
  ownProp (VArr l) k = None.
Proof.
  intros Hk Hlen. unfold ownProp, arrayLike. rewrite Hlen.
  now apply indexed_non_numeric.
Qed.

(** On anything but an object or an array the [in] operator throws. *)
Lemma extractOne_primitive d :
  objectLike d = false -> PanelHeader.extractOne d = Throw TypeError.
Proof.
  destruct d; try discriminate; reflexivity.
Qed.

(** On an array the loop body answers a table when the first item is an
    object, and goes on to the next query otherwise. *)
Lemma extractOne_array l :
  PanelHeader.extractOne (VArr l) =
  Normal (match l with
          | first :: _ =>
              if objectLike first then Some (itemsAsTable first l, table)
              else None
          | [] => None
          end).
Proof.
  unfold PanelHeader.extractOne, has, get.
  rewrite (ownProp_array_named l "series") by reflexivity.
  rewrite (ownProp_array_named l "columns") by reflexivity.
  rewrite (ownProp_array_named l "rows") by reflexivity.
  rewrite (ownProp_array_named l "categories") by reflexivity.
  rewrite (ownProp_array_named l "labels") by reflexivity.
  rewrite (ownProp_array_named l "datasets") by reflexivity.
  cbn [bind andb isArray].
  destruct l as [|first rest]; [reflexivity|].
  rewrite elemAt_array.
  cbn [bind andb isArray nth_error arrayLength List.length].
  change (0 <? Z.of_nat (S (List.length rest))) with true.
  cbn [andb bind]. unfold itemsAsTable.
  destruct first; reflexivity.
Qed.

(** On an object the branch for [categories] with [series] is never taken:
    it asks for an array under [series], and such a payload has already been
    answered as a time series. *)
Lemma extractOne_object props :
  PanelHeader.extractOne (VObj props) =
  if isArray (getOpt (VObj props) "series")
  then Normal (Some (VObj props, timeseries)) else
  if hasOwn props "columns" && hasOwn props "rows"
  then Normal (Some (VObj props, table)) else
  let labels := getOpt (VObj props) "labels" in
  let datasets := getOpt (VObj props) "datasets" in
  if truthy labels && truthy datasets then
    elems <- arrayMethod datasets ;;
    series' <- mapM PanelHeader.datasetToBarSeries (enumerate elems) ;;
    Normal (Some (datasetsAsBarChart (VObj props) series', barchart))
  else
  match datasets with
  | VArr elems =>
      hasTimeData <- someM PanelHeader.hasTimePoints elems ;;
      if hasTimeData then
        series' <- mapM PanelHeader.datasetToSeries elems ;;
        Normal (Some (datasetsAsTimeSeries series', timeseries))
      else Normal None
  | _ => Normal None
  end.
Proof.
  unfold PanelHeader.extractOne, datasetsAsBarChart, datasetsAsTimeSeries,
    getOpt, hasOwn.
  cbn [has get ownProp bind isArray andb arrayLength typeof].
  destruct (lookup props "series") as [s|];
    [destruct s|];
    cbn [isArray andb bind];
    destruct (lookup props "columns"), (lookup props "rows");
    cbn [andb bind]; try reflexivity;
    destruct (lookup props "categories");
    cbn [andb bind]; rewrite ?andb_false_r; cbn [andb bind];
    reflexivity.
Qed.

(** What is left of the loop body once [series], [columns] and [rows] have
    not settled the shape: the [labels]/[datasets] conventions. *)
Lemma extractOne_datasets props r t :
  (let labels := getOpt (VObj props) "labels" in
   let datasets := getOpt (VObj props) "datasets" in
   if truthy labels && truthy datasets then
     elems <- arrayMethod datasets ;;
     series' <- mapM PanelHeader.datasetToBarSeries (enumerate elems) ;;
     Normal (Some (datasetsAsBarChart (VObj props) series', barchart))
   else
   match datasets with
   | VArr elems =>
       hasTimeData <- someM PanelHeader.hasTimePoints elems ;;
       if hasTimeData then
         series' <- mapM PanelHeader.datasetToSeries elems ;;
         Normal (Some (datasetsAsTimeSeries series', timeseries))
       else Normal None
   | _ => Normal None
   end) = Normal (Some (r, t)) ->
  exists elems series',
    getOpt (VObj props) "datasets" = VArr elems /\
    ((t = barchart /\
      truthy (getOpt (VObj props) "labels") = true /\
      mapM PanelHeader.datasetToBarSeries (enumerate elems) = Normal series' /\
      r = datasetsAsBarChart (VObj props) series') \/
     (t = timeseries /\
      someM PanelHeader.hasTimePoints elems = Normal true /\
      mapM PanelHeader.datasetToSeries elems = Normal series' /\
      r = datasetsAsTimeSeries series')).
Proof.
  cbv zeta. intros H.
  destruct (truthy (getOpt (VObj props) "labels") &&
            truthy (getOpt (VObj props) "datasets")) eqn:E.
  - apply andb_prop in E. destruct E as [Hl _].
    apply bind_Normal in H. destruct H as (elems & He & H).
    apply bind_Normal in H. destruct H as (series' & Hs & H).
    inversion H. subst r t.
    destruct (getOpt (VObj props) "datasets"); try discriminate He.
    inversion He. subst. exists elems, series'. split; [reflexivity|].
    left. auto.
  - destruct (getOpt (VObj props) "datasets") as [| | | | |elems|];
      try discriminate H.
    apply bind_Normal in H. destruct H as (b & Hb & H).
    destruct b; [|discriminate H].
    apply bind_Normal in H. destruct H as (series' & Hs & H).
    inversion H. subst r t.
    exists elems, series'. split; [reflexivity|]. right. auto.
Qed.

(** The five ways in which the loop body settles on a payload. *)
Lemma extractOne_found d r t :
  PanelHeader.extractOne d = Normal (Some (r, t)) ->
  (t = timeseries /\ r = d /\
   exists props l, d = VObj props /\ lookup props "series" = Some (VArr l)) \/
  (t = table /\ r = d /\
   exists props, d = VObj props /\
     lookup props "columns" <> None /\ lookup props "rows" <> None) \/
  (t = table /\
   exists first rest, d = VArr (first :: rest) /\ objectLike first = true /\
     r = itemsAsTable first (first :: rest)) \/
  (exists props elems series',
     d = VObj props /\
     isArray (getOpt d "series") = false /\
     getOpt d "datasets" = VArr elems /\
     ((t = barchart /\
       truthy (getOpt d "labels") = true /\
       mapM PanelHeader.datasetToBarSeries (enumerate elems) =
         Normal series' /\
       r = datasetsAsBarChart d series') \/
      (t = timeseries /\
       someM PanelHeader.hasTimePoints elems = Normal true /\
       mapM PanelHeader.datasetToSeries elems = Normal series' /\
       r = datasetsAsTimeSeries series'))).
Proof.
  intros H.
  destruct d as [| |b|n|s|l|props];
    try (rewrite extractOne_primitive in H by reflexivity; discriminate H).
  - rewrite extractOne_array in H.
    destruct l as [|first rest]; [discriminate H|].
    destruct (objectLike first) eqn:Hf; [|discriminate H].
    inversion H; subst. right. right. left.
    split; [reflexivity|]. exists first, rest. auto.
  - rewrite extractOne_object in H.
    destruct (isArray (getOpt (VObj props) "series")) eqn:Harr.
    { inversion H; subst. left. split; [reflexivity|].
      split; [reflexivity|]. unfold getOpt in Harr. cbn [ownProp] in Harr.
      destruct (lookup props "series") as [s|] eqn:Hs; [|discriminate Harr].
      destruct s as [| | | | |l|]; try discriminate Harr.
      exists props, l. auto. }
    destruct (hasOwn props "columns" && hasOwn props "rows") eqn:Htab.
    { inversion H; subst. right. left. split; [reflexivity|].
      split; [reflexivity|]. exists props. split; [reflexivity|].
      apply andb_prop in Htab. unfold hasOwn in Htab.
      destruct Htab as [Hc Hr].
      split; intros Hnone; rewrite Hnone in *; discriminate. }
    apply extractOne_datasets in H.
    destruct H as (elems & series' & Hd & Hcases).
    right. right. right. exists props, elems, series'. auto.
Qed.

(** The loop over the queries stops at the first one it can classify. *)
Lemma extractDataForExport_found qs r t :
  PanelHeader.extractDataForExport qs = Normal (r, t) ->
  (r = VUndefined /\ t = unknown) \/
  (exists q, In q qs /\ truthy (data q) = true /\
     PanelHeader.extractOne (data q) = Normal (Some (r, t))).
Proof.
  induction qs as [|q rest IH]; simpl; intros H.
  - inversion H. now left.
  - destruct (truthy (data q)) eqn:Hq; cbn [negb] in H.
    + apply bind_Normal in H. destruct H as (o & Ho & H).
      destruct o as [found|].
      * inversion H; subst. right. exists q. auto.
      * destruct (IH H) as [Hu|(q' & Hin & Hq' & Hex)]; [now left|].
        right. exists q'. auto.
    + destruct (IH H) as [Hu|(q' & Hin & Hq' & Hex)]; [now left|].
      right. exists q'. auto.
Qed.

(** What [extractDataForExport] hands over is either [undefined] with the
    type 'unknown', or an object with one of the three other types: no
    array, string or number ever reaches the export as such. *)
Theorem extractDataForExport_unknown_or_object :
  forall (queryResults : list QueryData) (exported : value) (t : DataType),
    PanelHeader.extractDataForExport queryResults = Normal (exported, t) ->
    (exported = VUndefined /\ t = unknown) \/
    (t <> unknown /\ exists props, exported = VObj props).
Proof.
  intros qs r t H.
  destruct (extractDataForExport_found qs r t H)
    as [Hu|(q & _ & _ & Hex)]; [now left|].
  right. apply extractOne_found in Hex.
  destruct Hex as [(-> & -> & props & l & Hd & _)
                  |[(-> & -> & props & Hd & _)
                  |[(-> & first & rest & _ & _ & ->)
                  |(props & elems & series' & _ & _ & _ &
                    [(-> & _ & _ & ->)|(-> & _ & _ & ->)])]]].
  - split; [discriminate|]. eauto.
  - split; [discriminate|]. eauto.
  - split; [discriminate|]. unfold itemsAsTable. eauto.
  - split; [discriminate|]. unfold datasetsAsBarChart. eauto.
  - split; [discriminate|]. unfold datasetsAsTimeSeries. eauto.
Qed.

Lemma extractDataForExport_unknown_or_object_witness :
  (itemsAsTable (VObj [("pod", VStr "a")]) [VObj [("pod", VStr "a")]] =
   VUndefined /\ table = unknown) \/
  (table <> unknown /\
   exists props,
     itemsAsTable (VObj [("pod", VStr "a")]) [VObj [("pod", VStr "a")]] =
     VObj props).
Proof.
  apply (extractDataForExport_unknown_or_object
           [mkQueryData VNull false None;
            mkQueryData (VArr [VObj [("pod", VStr "a")]]) false None]).
  reflexivity.
Defined.

(** The answer 'barchart' comes from the [labels]/[datasets] convention
    only: the query it is made of carries no array under [series].  The
    branch for [categories] with [series] cannot produce it, since it asks
    for an array under [series]. *)
Theorem extractDataForExport_barchart_from_labels :
  forall (queryResults : list QueryData) (exported : value),
    PanelHeader.extractDataForExport queryResults =
      Normal (exported, barchart) ->
    exists (query : QueryData) (datasets series' : list value),
      In query queryResults /\
      isArray (getOpt (data query) "series") = false /\
      truthy (getOpt (data query) "labels") = true /\
      getOpt (data query) "datasets" = VArr datasets /\
      mapM PanelHeader.datasetToBarSeries (enumerate datasets) =
        Normal series' /\
      exported = datasetsAsBarChart (data query) series'.
Proof.
  intros qs r H.
  destruct (extractDataForExport_found qs r barchart H)
    as [[_ Hu]|(q & Hin & _ & Hex)]; [discriminate Hu|].
  apply extractOne_found in Hex.
  destruct Hex as [(Ht & _)|[(Ht & _)|[(Ht & _)
                  |(props & elems & series' & Hd & Harr & Hds &
                    [(_ & Hl & Hm & ->)|(Ht & _)])]]];
    try discriminate Ht.
  exists q, elems, series'. auto 10.
Qed.

Lemma extractDataForExport_barchart_from_labels_witness :
  exists (query : QueryData) (datasets series' : list value),
    In query [mkQueryData
                (VObj [("labels", VArr [VStr "a"]);
                       ("datasets", VArr [VObj [("data", VArr [VNum 1])]])])
                false None] /\
    isArray (getOpt (data query) "series") = false /\
    truthy (getOpt (data query) "labels") = true /\
    getOpt (data query) "datasets" = VArr datasets /\
    mapM PanelHeader.datasetToBarSeries (enumerate datasets) =
      Normal series' /\
    datasetsAsBarChart
      (VObj [("labels", VArr [VStr "a"]);
             ("datasets", VArr [VObj [("data", VArr [VNum 1])]])])
      [VObj [("name", VStr "Dataset 1"); ("displayName", VStr "Dataset 1");
             ("data", VArr [VNum 1]); ("color", VUndefined)]] =
    datasetsAsBarChart (data query) series'.
Proof.
  apply (extractDataForExport_barchart_from_labels
           [mkQueryData
              (VObj [("labels", VArr [VStr "a"]);
                     ("datasets", VArr [VObj [("data", VArr [VNum 1])]])])
              false None]).
  reflexivity.
Defined.

(** A truthy payload that is neither an object nor an array (a string, a
    number, [true]) makes the extraction throw a TypeError at the first
    [in] test, whatever the queries after it hold; queries without data
    before it are skipped. *)
Theorem extractDataForExport_throws_on_primitive :
  forall (before : list QueryData) (query : QueryData)
         (rest : list QueryData),
    (forall q, In q before -> truthy (data q) = false) ->
    truthy (data query) = true ->
    objectLike (data query) = false ->
    PanelHeader.extractDataForExport (before ++ query :: rest)%list =
    Throw TypeError.
Proof.
  intros before q rest Hbefore Hq Hprim.
  induction before as [|b before IH]; simpl.
  - rewrite Hq. cbn [negb]. rewrite extractOne_primitive by exact Hprim.
    reflexivity.
  - rewrite (Hbefore b) by now left. cbn [negb].
    apply IH. intros q' Hin. apply Hbefore. now right.
Qed.

Lemma extractDataForExport_throws_on_primitive_witness :
  PanelHeader.extractDataForExport
    [mkQueryData VUndefined true None;
     mkQueryData (VStr "no data") false None;
     mkQueryData emptyRowsTable false None] = Throw TypeError.
Proof.
  apply (extractDataForExport_throws_on_primitive
           [mkQueryData VUndefined true None]
           (mkQueryData (VStr "no data") false None)
           [mkQueryData emptyRowsTable false None]).
  - intros q [<-|[]]. reflexivity.
  - reflexivity.
  - reflexivity.
Defined.

(** ** From the extraction to the serializers *)



Lemma get_getOpt v k : nullish v = false -> get v k = Normal (getOpt v k).
Proof.
  destruct v; try discriminate; reflexivity.
Qed.

Lemma truthy_not_nullish v : truthy v = true -> nullish v = false.
Proof.
  destruct v; try discriminate; reflexivity.
Qed.






Lemma detectDataType_itemsAsTable first items :
  detectDataType (itemsAsTable first items) = Normal table.
Proof.
  reflexivity.
Qed.








Lemma datasetToSeries_shape dataset y :
  PanelHeader.datasetToSeries dataset = Normal y ->
  exists name values,
    y = VObj [("name", name); ("displayName", name);
              ("values", VArr values)].
Proof.
  unfold PanelHeader.datasetToSeries. intros H. peel H.
  inversion H; subst. eauto.
Qed.

Lemma detectDataType_datasetsAsTimeSeries elems series' :
  someM PanelHeader.hasTimePoints elems = Normal true ->
  mapM PanelHeader.datasetToSeries elems = Normal series' ->
  detectDataType (datasetsAsTimeSeries series') = Normal timeseries.
Proof.
  intros Hsome Hmap.
  destruct elems as [|x xs]; [discriminate Hsome|].
  cbn [mapM] in Hmap.
  apply bind_Normal in Hmap. destruct Hmap as (y & Hy & Hmap).
  apply bind_Normal in Hmap. destruct Hmap as (ys & _ & Hmap).
  inversion Hmap; subst.
  apply datasetToSeries_shape in Hy. destruct Hy as (name & values & ->).
  unfold detectDataType, datasetsAsTimeSeries.
  cbn [truthy negb get ownProp lookup String.eqb Ascii.eqb Bool.eqb bind
       isArray andb arrayLength List.length].
  rewrite elemAt_array. reflexivity.
Qed.

(** When the extraction does not pass a query's payload on as it is but
    converts it to a time series or a table, [detectDataType] recognises
    the converted payload as that shape, so the export button is shown for
    it. *)
Theorem converted_payload_is_detected :
  forall (queryResults : list QueryData) (exported : value) (t : DataType),
    PanelHeader.extractDataForExport queryResults = Normal (exported, t) ->
    t = timeseries \/ t = table ->
    (forall q, In q queryResults -> data q <> exported) ->
    detectDataType exported = Normal t /\
    hasExportableData exported = Normal true.
Proof.
  intros qs r t H Ht Hconv.
  assert (Hdet : detectDataType r = Normal t).
  { destruct (extractDataForExport_found qs r t H)
      as [[_ Hu]|(q & Hin & _ & Hex)];
      [destruct Ht; congruence|].
    apply extractOne_found in Hex.
    destruct Hex as [(_ & Hr & _)|[(_ & Hr & _)
                    |[(-> & first & rest & _ & _ & ->)
                    |(props & elems & series' & _ & _ & _ &
                      [(-> & _)|(-> & Hsome & Hmap & ->)])]]].
    - exfalso. apply (Hconv q Hin). now symmetry.
    - exfalso. apply (Hconv q Hin). now symmetry.
    - apply detectDataType_itemsAsTable.
    - destruct Ht; discriminate.
    - now apply (detectDataType_datasetsAsTimeSeries elems). }
  split; [exact Hdet|].
  unfold hasExportableData. rewrite Hdet. cbn [bind].
  destruct Ht; subst; reflexivity.
Qed.

Lemma converted_payload_is_detected_witness :
  detectDataType
    (datasetsAsTimeSeries
       [VObj [("name", VStr "cpu"); ("displayName", VStr "cpu");
              ("values", VArr [VArr [VNum 5; VNum 7]])]]) =
    Normal timeseries /\
  hasExportableData
    (datasetsAsTimeSeries
       [VObj [("name", VStr "cpu"); ("displayName", VStr "cpu");
              ("values", VArr [VArr [VNum 5; VNum 7]])]]) = Normal true.
Proof.
  apply (converted_payload_is_detected
           [mkQueryData
              (VObj [("datasets",
                      VArr [VObj [("label", VStr "cpu");
                                  ("data", VArr [VArr [VNum 5; VNum 7]])]])])
              false None]).
  - reflexivity.
  - now left.
  - intros q [<-|[]]. discriminate.
Defined.

(** ** A bar chart sent through the extraction *)

(** Series without an array under [values] leave the accumulator of the
    time-series export untouched. *)
Lemma processSeries_no_values parse series :
  (forall s, In s series -> isArray (getOpt s "values") = false) ->
  forall i acc, processSeries parse i series acc = Normal acc.
Proof.
  induction series as [|s rest IH]; intros Hall i acc; [reflexivity|].
  cbn [processSeries].
  destruct (truthy s) eqn:Hs; cbn [negb].
  - rewrite (get_getOpt s "values" (truthy_not_nullish s Hs)). cbn [bind].
    assert (Hv := Hall s (or_introl eq_refl)).
    destruct (getOpt s "values"); try discriminate Hv;
      apply IH; intros s' Hin; apply Hall; now right.
  - apply IH. intros s' Hin. apply Hall. now right.
Qed.

Lemma detectDataType_barchart_series props :
  detectDataType (VObj props) = Normal barchart ->
  exists first later, lookup props "series" = Some (VArr (first :: later)).
Proof.
  intros H. unfold detectDataType in H.
  cbn [truthy negb get ownProp bind] in H.
  destruct (lookup props "series") as [s|] eqn:Hs.
  - destruct s as [| |b|n|s|l|ps];
      try (exfalso; split_deep H; fail).
    destruct l as [|first later]; [exfalso; split_deep H | eauto].
  - exfalso. split_deep H.
Qed.

(** A payload that [detectDataType] classifies as a bar chart never reaches
    the bar-chart serializer through the extraction of PanelHeader: its
    [series] is an array, so the extraction answers 'timeseries' with the
    payload unchanged.  When no series carries an array under [values], as
    in a bar chart, the time-series serializer then writes its comment lines
    and the header [DateTime,] and not a single row. *)
Theorem bar_payload_extracted_as_time_series :
  forall (Date_parse : string -> option Z)
         (props : list (string * value)) (series : list value)
         (title : string),
    detectDataType (VObj props) = Normal barchart ->
    lookup props "series" = Some (VArr series) ->
    (forall s, In s series -> isArray (getOpt s "values") = false) ->
    (forall fetching err rest,
        PanelHeader.extractDataForExport
          (mkQueryData (VObj props) fetching err :: rest) =
        Normal (VObj props, timeseries)) /\
    exportTimeSeriesData Date_parse (VObj props) title =
      Normal ("# Legend Information:" ++ nl ++
              "#" ++ nl ++
              "DateTime," ++ nl).
Proof.
  intros parse props series title Hdet Hs Hvalues.
  destruct (detectDataType_barchart_series props Hdet)
    as (first & later & Hs').
  rewrite Hs in Hs'. inversion Hs'. subst series. clear Hs'.
  split.
  - intros fetching err rest.
    cbn [PanelHeader.extractDataForExport data truthy negb].
    rewrite extractOne_object. unfold getOpt. cbn [ownProp].
    rewrite Hs. reflexivity.
  - unfold exportTimeSeriesData. cbn [get ownProp bind]. rewrite Hs.
    cbn [truthy isArray negb orb arrayLength List.length indexLoop arrayLike
         bind].
    change (Z.of_nat (S (List.length later)) =? 0) with false.
    cbn [orb].
    rewrite (processSeries_no_values parse (first :: later) Hvalues).
    reflexivity.
Qed.

Lemma bar_payload_extracted_as_time_series_witness :
  (forall fetching err rest,
      PanelHeader.extractDataForExport
        (mkQueryData
           (VObj [("categories", VArr [VStr "a"; VStr "b"]);
                  ("series", VArr [VObj [("name", VStr "s1");
                                         ("data", VArr [VNum 5; VNum 6])]])])
           fetching err :: rest) =
      Normal (VObj [("categories", VArr [VStr "a"; VStr "b"]);
                    ("series", VArr [VObj [("name", VStr "s1");
                                           ("data", VArr [VNum 5; VNum 6])]])],
              timeseries)) /\
  exportTimeSeriesData noParse
    (VObj [("categories", VArr [VStr "a"; VStr "b"]);
           ("series", VArr [VObj [("name", VStr "s1");
                                  ("data", VArr [VNum 5; VNum 6])]])])
    "Bars" =
    Normal ("# Legend Information:" ++ nl ++ "#" ++ nl ++ "DateTime," ++ nl).
Proof.
  apply (bar_payload_extracted_as_time_series noParse
           [("categories", VArr [VStr "a"; VStr "b"]);
            ("series", VArr [VObj [("name", VStr "s1");
                                   ("data", VArr [VNum 5; VNum 6])]])]
           [VObj [("name", VStr "s1"); ("data", VArr [VNum 5; VNum 6])]]).
  - reflexivity.
  - reflexivity.
  - intros s [<-|[]]. reflexivity.
Defined.

(** ** The export button and its click *)

(** Whether the export button is rendered depends on the payload alone: it
    is left out exactly when [detectDataType] answers 'unknown', with or
    without a [dataType] hint.  The hint only chooses the word of the
    tooltip. *)
Theorem csvExportButton_shown_iff :
  forall (queryResults : value) (dataType : option DataType),
    (csvExportButton queryResults dataType = Normal None <->
     detectDataType queryResults = Normal unknown) /\
    (forall text,
        csvExportButton queryResults dataType = Normal (Some text) <->
        exists shape,
          detectDataType queryResults = Normal shape /\
          shape <> unknown /\
          text = "Export " ++
                 DataType_str (match dataType with
                               | Some t => t
                               | None => shape
                               end) ++
                 " data as CSV").
Proof.
  intros d hint. unfold csvExportButton, hasExportableData.
  destruct (detectDataType d) as [shape|e]; cbn [bind].
  - split.
    + destruct shape, hint; cbn [isUnknown negb bind];
        split; intros H; try discriminate H; reflexivity.
    + intros text.
      destruct shape; cbn [isUnknown negb bind].
      4: { split; [discriminate|].
           intros (shape & Hs & Hne & _). inversion Hs. congruence. }
      all: split;
        [ intros H; eexists; split; [reflexivity|]; split; [discriminate|];
          destruct hint; cbn [bind] in H; inversion H; reflexivity
        | intros (shape & Hs & _ & ->); inversion Hs; subst;
          destruct hint; reflexivity ].
  - split; [split; discriminate|].
    intros text. split; [discriminate|].
    intros (shape & Hs & _). discriminate Hs.
Qed.

(** A click on a rendered export button is never silent: under any hint
    among 'timeseries', 'table' and 'barchart', or none, the handler
    downloads a file or throws. *)
Theorem shown_button_click_is_not_silent :
  forall (Date_parse : string -> option Z) (Date_now : Z) (title : string)
         (queryResults : value) (dataType : option DataType) (text : string),
    dataType <> Some unknown ->
    csvExportButton queryResults dataType = Normal (Some text) ->
    createCsvExportHandler Date_parse Date_now title queryResults dataType <>
    Normal NoOp.
Proof.
  intros parse now title d hint text Hhint Hshown Hclick.
  unfold csvExportButton, hasExportableData in Hshown.
  destruct (detectDataType d) as [shape|e] eqn:Hdet; cbn [bind] in Hshown;
    [|discriminate Hshown].
  assert (Hshape : shape <> unknown).
  { intros ->. discriminate Hshown. }
  assert (Hd : truthy d = true).
  { destruct (truthy d) eqn:E; [reflexivity|].
    unfold detectDataType in Hdet. rewrite E in Hdet. cbn [negb] in Hdet.
    congruence. }
  unfold createCsvExportHandler in Hclick. rewrite Hd in Hclick.
  cbn [negb] in Hclick.
  apply bind_Normal in Hclick. destruct Hclick as (t & Ht & Hclick).
  assert (Hknown : t <> unknown).
  { destruct hint as [t'|]; [inversion Ht; congruence|congruence]. }
  apply bind_Normal in Hclick. destruct Hclick as (exported & _ & Hclick).
  apply bind_Normal in Hclick. destruct Hclick as (body & Hbody & Hclick).
  destruct body as [csv|]; [discriminate Hclick|].
  destruct t; try congruence;
    apply bind_Normal in Hbody; destruct Hbody as (csv & _ & Hbody);
    discriminate Hbody.
Qed.

Lemma shown_button_click_is_not_silent_witness :
  createCsvExportHandler noParse 1700000000000 "Pods" timeSeriesAsTable
    (Some table) <> Normal NoOp.
Proof.
  apply (shown_button_click_is_not_silent noParse 1700000000000 "Pods"
           timeSeriesAsTable (Some table) "Export table data as CSV").
  - discriminate.
  - reflexivity.
Defined.

(** ** The state indicator, when nothing is shown *)

(** No indicator is rendered exactly when no result carries an error and
    the results are not both fetching and holding data: queries that are
    still fetching their first data show no spinner. *)
Theorem queryStateIndicator_nothing_iff :
  forall queryResults : list QueryData,
    Upstream.queryStateIndicator queryResults = Upstream.NoIndicator <->
    ~ (someFetching queryResults /\ someData queryResults) /\
    carriedErrors queryResults = [].
Proof.
  intros qs. unfold Upstream.queryStateIndicator, Upstream.stateIndicator.
  rewrite <- existsb_someFetching, <- existsb_someData,
    <- filter_hasError_nil.
  destruct (existsb (fun q => isFetching q) qs);
    destruct (existsb (fun q => truthy (data q)) qs); cbn [andb].
  1: { split; [discriminate|]. intros [H _]. exfalso. apply H. auto. }
  all: destruct (filter Upstream.hasError qs) as [|q rest]; simpl;
    [ split; [intros _; split; [intros [? ?]; discriminate|reflexivity]
             |reflexivity]
    | split; [discriminate|intros [_ H]; discriminate H] ].
Qed.

(** ** The stashed variant: type guards and table export *)

Lemma stashed_isObject d : Stashed.isObject d = objectLike d.
Proof.
  unfold Stashed.isObject.
  destruct d; cbn [typeof objectLike]; rewrite ?andb_false_r; reflexivity.
Qed.

Lemma stashed_guards_total d :
  exists b1 b2 b3,
    Stashed.isTimeSeriesData d = Normal b1 /\
    Stashed.isBarChartData d = Normal b2 /\
    Stashed.isTableData d = Normal b3.
Proof.
  unfold Stashed.isTimeSeriesData, Stashed.isBarChartData,
    Stashed.isTableData.
  rewrite stashed_isObject.
  destruct d; cbn [objectLike negb has get bind]; do 3 eexists;
    repeat split.
Qed.





(** ** PanelHeader.tsx, stashed side: the payload chosen by panel type *)

Lemma isTraceData_returns d :
  exists b, StashedHeader.isTraceData d = Normal b.
Proof.
  unfold StashedHeader.isTraceData. rewrite stashed_isObject.
  destruct d; cbn [objectLike negb has get bind]; eauto.
Qed.

Lemma returnsData_returns panelType d :
  exists b, StashedHeader.returnsData panelType d = Normal b.
Proof.
  destruct (stashed_guards_total d) as (b1 & b2 & b3 & H1 & H2 & H3).
  destruct panelType; cbn [StashedHeader.returnsData]; eauto.
  destruct (isTraceData_returns d) as [b ->]. cbn [bind]. eauto.
Qed.

Lemma firstOfType_returns panelType qs :
  exists found, StashedHeader.firstOfType panelType qs = Normal found.
Proof.
  induction qs as [|q rest IH]; cbn [StashedHeader.firstOfType]; [eauto|].
  destruct (truthy (data q)); [|exact IH].
  destruct (returnsData_returns panelType (data q)) as [b ->]. cbn [bind].
  destruct b; eauto.
Qed.

Lemma firstOfType_Some panelType qs d :
  StashedHeader.firstOfType panelType qs = Normal (Some d) ->
  truthy d = true /\
  StashedHeader.returnsData panelType d = Normal true /\
  exists q, In q qs /\ data q = d.
Proof.
  induction qs as [|q rest IH]; cbn [StashedHeader.firstOfType]; intros H;
    [discriminate H|].
  assert (Hrest : StashedHeader.firstOfType panelType rest = Normal (Some d) ->
                  truthy d = true /\
                  StashedHeader.returnsData panelType d = Normal true /\
                  exists q', In q' (q :: rest) /\ data q' = d).
  { intros H'. destruct (IH H') as (Ht & Hr & q' & Hin & Hq').
    repeat split; auto. exists q'. split; [now right|exact Hq']. }
  destruct (truthy (data q)) eqn:Hq; [|auto].
  apply bind_Normal in H. destruct H as (b & Hb & H).
  destruct b; [|auto].
  inversion H; subst. repeat split; auto. exists q. split; [now left|auto].
Qed.

Lemma firstOfType_None panelType qs :
  StashedHeader.firstOfType panelType qs = Normal None ->
  forall q, In q qs -> truthy (data q) = true ->
    StashedHeader.returnsData panelType (data q) = Normal false.
Proof.
  induction qs as [|q rest IH]; cbn [StashedHeader.firstOfType]; intros H q' Hin Hq';
    [destruct Hin|].
  destruct (truthy (data q)) eqn:Hq.
  - apply bind_Normal in H. destruct H as (b & Hb & H).
    destruct b; [discriminate H|].
    destruct Hin as [<-|Hin]; [exact Hb|now apply IH].
  - destruct Hin as [<-|Hin]; [congruence|now apply IH].
Qed.

Lemma firstData_Some qs d :
  StashedHeader.firstData qs = Some d ->
  truthy d = true /\ exists q, In q qs /\ data q = d.
Proof.
  induction qs as [|q rest IH]; cbn [StashedHeader.firstData]; intros H;
    [discriminate H|].
  destruct (truthy (data q)) eqn:Hq.
  - inversion H; subst. split; [exact Hq|]. exists q. split; [now left|auto].
  - destruct (IH H) as (Ht & q' & Hin & Hq'). split; [exact Ht|].
    exists q'. split; [now right|exact Hq'].
Qed.

Lemma firstData_None qs :
  StashedHeader.firstData qs = None ->
  forall q, In q qs -> truthy (data q) = false.
Proof.
  induction qs as [|q rest IH]; cbn [StashedHeader.firstData]; intros H q' Hin;
    [destruct Hin|].
  destruct (truthy (data q)) eqn:Hq; [discriminate H|].
  destruct Hin as [<-|Hin]; [exact Hq|now apply IH].
Qed.

(** The payload chosen for the export.  The choice never throws, and it is
    [undefined] for an empty list of results only.  As soon as one query
    holds data, the data of a query is chosen, and it passes the test of
    the panel's type whenever the data of some query does: the first data
    there is stands in only when none matches. *)
Theorem dataForExport_prefers_panel_type :
  forall (queryResults : list QueryData)
         (panelType : StashedHeader.PanelType),
    exists exported,
      StashedHeader.dataForExport queryResults panelType = Normal exported /\
      (exported = StashedHeader.Undefined <-> queryResults = []) /\
      ((exists q, In q queryResults /\ truthy (data q) = true) <->
       exists d, exported = StashedHeader.Data d) /\
      (forall d,
          exported = StashedHeader.Data d ->
          truthy d = true /\
          (exists q, In q queryResults /\ data q = d) /\
          ((exists q, In q queryResults /\ truthy (data q) = true /\
                      StashedHeader.returnsData panelType (data q) =
                        Normal true) ->
           StashedHeader.returnsData panelType d = Normal true)).
Proof.
  intros qs panelType.
  destruct qs as [|q0 qs0].
  { exists StashedHeader.Undefined. split; [reflexivity|].
    split; [tauto|]. split.
    - split; [intros (q & [] & _)|intros [d H]; discriminate H].
    - intros d H. discriminate H. }
  set (qs := q0 :: qs0).
  unfold StashedHeader.dataForExport. fold qs.
  destruct (firstOfType_returns panelType qs) as [found Hfound].
  rewrite Hfound. cbn [bind].
  destruct found as [d|].
  - exists (StashedHeader.Data d). split; [reflexivity|].
    destruct (firstOfType_Some panelType qs d Hfound) as (Ht & Hr & q & Hin & Hq).
    split; [split; discriminate|]. split.
    + split; [eauto|]. intros _. exists q. subst d. auto.
    + intros d' H. inversion H; subst d'. repeat split; eauto.
  - assert (Hnone := firstOfType_None panelType qs Hfound).
    destruct (StashedHeader.firstData qs) as [d|] eqn:Hdata.
    + exists (StashedHeader.Data d). split; [reflexivity|].
      destruct (firstData_Some qs d Hdata) as (Ht & q & Hin & Hq).
      split; [split; discriminate|]. split.
      * split; [eauto|]. intros _. exists q. subst d. auto.
      * intros d' H. inversion H; subst d'. repeat split; eauto.
        intros (q' & Hin' & Hq' & Hr'). rewrite (Hnone q' Hin' Hq') in Hr'.
        discriminate Hr'.
    + assert (Hfalsy := firstData_None qs Hdata).
      exists (match qs0 with
              | [] => StashedHeader.Query q0
              | _ => StashedHeader.Queries qs
              end).
      split; [unfold qs; destruct qs0; reflexivity|].
      split; [split; [destruct qs0; discriminate|discriminate]|].
      split.
      * split.
        -- intros (q & Hin & Hq). rewrite (Hfalsy q Hin) in Hq. discriminate Hq.
        -- intros [d H]. destruct qs0; discriminate H.
      * intros d H. destruct qs0; discriminate H.
Qed.
